(** * The Monty execution bridge of [monty_rlm.py]

    A shallow embedding of [MontyCodeInterpreter]: the persistent state
    store, the reserved tools [SAVE], [CLEAR] and [SUBMIT], the per-turn tool
    registry and variable bindings, and the suspend/resume loop of
    [execute].  The Monty interpreter ([pydantic_monty]) and the tools
    registered by the caller are external collaborators and appear as
    parameters. *)

From stdpp Require Import base option list gmap strings pretty fin_maps.

(** ** Python values and exceptions *)

(** The fragment of Python objects that crosses the bridge. *)
#[warnings="-register-all"]
Inductive Value :=
| VNone
| VBool (b : bool)
| VInt (n : Z)
| VStr (s : string)
| VList (items : list Value).

(** A Python [dict] with string keys, used as a map. *)
Abbreviation Dict := (gmap string Value).

(** Keyword arguments of one call, in call order ([progress.kwargs]). *)
Abbreviation Kwargs := (list (string * Value)).

(** Why the Python runtime rejects a call or a builtin operation made by the
    bridge. *)
Inductive TypeErrorReason :=
| UnexpectedPositional (qualname : string) (given : nat)
| UnexpectedKeyword (qualname : string) (key : string)
| Unhashable (v : Value)
| JoinExpectedStr (v : Value).

(** Exceptions that reach [execute] from below. *)
Inductive Exception :=
| MontySyntaxError (msg : string)
| MontyTypingError (msg : string)
| MontyRuntimeError (msg : string)
| TypeError (reason : TypeErrorReason)
| ToolException (cls msg : string).

(** Exceptions that leave [execute]: the two it raises itself, with the
    [from e] cause, and a [BaseException] that is not an [Exception]
    ([KeyboardInterrupt], [SystemExit], ...), which no clause of [execute]
    catches and which passes through as it is. *)
Inductive Raised :=
| SyntaxError (msg : string) (cause : Exception)
| CodeInterpreterError (msg : string) (cause : option Exception)
| Uncaught (cls msg : string).

(** The class of a raised exception: what an [except] clause of the caller
    can branch on. *)
Inductive ExceptionClass :=
| SyntaxErrorClass
| CodeInterpreterErrorClass
| BaseExceptionClass (cls : string).

Definition class_of (e : Raised) : ExceptionClass :=
  match e with
  | SyntaxError _ _ => SyntaxErrorClass
  | CodeInterpreterError _ _ => CodeInterpreterErrorClass
  | Uncaught cls _ => BaseExceptionClass cls
  end.

Definition message_of (e : Raised) : string :=
  match e with
  | SyntaxError msg _ => msg
  | CodeInterpreterError msg _ => msg
  | Uncaught _ msg => msg
  end.

(** What a call of a tool does: it returns a value, raises an [Exception],
    or raises a [BaseException] that is not an [Exception], of which the
    class and the text are kept. *)
Inductive ToolResult :=
| Returned (result : Value)
| Failed (e : Exception)
| Escaped (cls msg : string).

(** ** Dictionary and string operations used by the bridge *)

(** [d.update(kwargs)]: every pair is stored, in order. *)
Definition dict_update (d : Dict) (kwargs : Kwargs) : Dict :=
  foldl (fun m kv => <[kv.1 := kv.2]> m) d kwargs.

(** [dict(kwargs)] *)
Definition dict (kwargs : Kwargs) : Dict := dict_update ∅ kwargs.

(** [d.update(other)] for another dictionary. *)
Definition dict_merge (d other : Dict) : Dict := other ∪ d.

(** [d.setdefault(name, value)], for its effect on [d]. *)
Definition setdefault (d : Dict) (name : string) (value : Value) : Dict :=
  match d !! name with
  | Some _ => d
  | None => <[name := value]> d
  end.

(** [sep.join(parts)] *)
Definition join (sep : string) (parts : list string) : string :=
  String.concat sep parts.

(** [sep.join(values)] raises unless every item is a [str]. *)
Fixpoint join_values_aux (values : list Value)
  : TypeErrorReason + list string :=
  match values with
  | [] => inr []
  | VStr s :: rest =>
      match join_values_aux rest with
      | inr parts => inr (s :: parts)
      | inl r => inl r
      end
  | v :: _ => inl (JoinExpectedStr v)
  end.

Definition join_values (sep : string) (values : list Value)
  : TypeErrorReason + string :=
  match join_values_aux values with
  | inr parts => inr (join sep parts)
  | inl r => inl r
  end.

(** ** The persistent state store and the reserved tools *)

(** [_save], which accepts keyword arguments only, called with the
    positional and keyword arguments of the suspension. *)
Definition _save (args : list Value) (kwargs : Kwargs) (_state : Dict)
  : ToolResult * Dict :=
  match args with
  | [] =>
      (Returned (VStr ("Saved: " +:+ join ", " kwargs.*1)),
       dict_update _state kwargs)
  | _ :: _ =>
      (Failed (TypeError (UnexpectedPositional "_save" (length args))), _state)
  end.

(** The loop [for n in names: self._state.pop(n, None)]: the keys of the
    store are strings, so only a [str] can remove one.  A list cannot be
    hashed and stops the loop, unless the store is empty when the list is
    reached: [dict.pop] with a default returns the default of an empty
    dictionary before it hashes the key. *)
Fixpoint pop_each (names : list Value) (_state : Dict)
  : option TypeErrorReason * Dict :=
  match names with
  | [] => (None, _state)
  | VStr n :: rest => pop_each rest (delete n _state)
  | VList items :: rest =>
      if decide (_state = ∅) then pop_each rest _state
      else (Some (Unhashable (VList items)), _state)
  | _ :: rest => pop_each rest _state
  end.

(** [_clear], which accepts positional arguments only, called with the
    positional and keyword arguments of the suspension. *)
Definition _clear (args : list Value) (kwargs : Kwargs) (_state : Dict)
  : ToolResult * Dict :=
  match kwargs with
  | (key, _) :: _ =>
      (Failed (TypeError (UnexpectedKeyword "_clear" key)), _state)
  | [] =>
      match args with
      | [] => (Returned (VStr "Cleared all saved state"), ∅)
      | _ :: _ =>
          match pop_each args _state with
          | (Some r, st) => (Failed (TypeError r), st)
          | (None, st) =>
              match join_values ", " args with
              | inr names => (Returned (VStr ("Cleared: " +:+ names)), st)
              | inl r => (Failed (TypeError r), st)
              end
          end
      end
  end.

(** The registry entry of [SUBMIT]: a lambda that accepts keyword arguments
    and returns [None]. *)
Definition _submit (args : list Value) (kwargs : Kwargs) (_state : Dict)
  : ToolResult * Dict :=
  match args with
  | [] => (Returned VNone, _state)
  | _ :: _ =>
      (Failed (TypeError (UnexpectedPositional "<lambda>" (length args))),
       _state)
  end.

(** ** The collaborators of the bridge *)

(** What [monty.start] and [progress.resume] hand back: the run is over, or
    it is suspended on a call of an external function, or it is suspended in
    some other way (a future snapshot). *)
Inductive Progress (Suspended : Type) :=
| MontyComplete (output : Value)
| MontySnapshot (function_name : string) (args : list Value)
    (kwargs : Kwargs) (suspended : Suspended)
| MontyFutureSnapshot.

Arguments MontyComplete {Suspended} output.
Arguments MontySnapshot {Suspended} function_name args kwargs suspended.
Arguments MontyFutureSnapshot {Suspended}.

(** Why [pydantic_monty.Monty(...)] refuses a program. *)
Inductive MontyRefusal :=
| RefusedSyntax (msg : string)
| RefusedTyping (msg : string).

(** One call of the print callback: the stream and the text. *)
Abbreviation Emitted := (list (string * string)).

(** Everything [execute] relies on and this repository does not define: the
    interpreter of [pydantic_monty], the state of the host that caller tools
    work on, and the wording of the [TypeError]s of the Python runtime.
    [Monty] takes the code, the input names, the names of the external
    functions, [type_check] and [type_check_stubs], and fails with one of
    the two exceptions [execute] catches around it; [start] fails with a
    [MontyRuntimeError], of which the message is kept; [resume] may raise
    any [Exception].  [start] and [resume] also report what the run printed
    before it stopped.  An exception of Monty that [execute] has no clause
    for would propagate unchanged and is not part of the model. *)
Class Platform := {
  World : Type;
  ResourceLimits : Type;
  MontyProgram : Type;
  Suspended : Type;
  Monty : string -> list string -> list string -> bool -> option string ->
          MontyRefusal + MontyProgram;
  start : MontyProgram -> option Dict -> option ResourceLimits ->
          Emitted * (string + Progress Suspended);
  resume : Suspended -> Value -> Emitted * (Exception + Progress Suspended);
  type_error_message : TypeErrorReason -> string;
}.

(** ** The interpreter *)

(** What [execute] returns: [None], the captured text, or a
    [FinalOutput]. *)
Inductive Result :=
| PyNone
| PyStr (s : string)
| FinalOutput (output : Dict).

Inductive Outcome :=
| Return (r : Result)
| Raise (e : Raised).

(** One entry of [output_fields]: a dictionary with the keys [name] and
    [type]. *)
Record OutputField := { field_name : string; field_type : string }.

Section Bridge.
Context `{P : Platform}.

(** [str(e)] *)
Definition str (e : Exception) : string :=
  match e with
  | MontySyntaxError msg => msg
  | MontyTypingError msg => msg
  | MontyRuntimeError msg => msg
  | TypeError reason => type_error_message reason
  | ToolException _ msg => msg
  end.

(** A tool registered by the caller: called with positional and keyword
    arguments, it returns or raises, and may change the host. *)
Definition CallerTool : Type :=
  list Value -> Kwargs -> World -> ToolResult * World.

(** An entry of [all_tools]: the reserved tools are closures over
    [self._state]. *)
Definition Tool : Type :=
  list Value -> Kwargs -> World * Dict -> ToolResult * (World * Dict).

Definition caller_tool (f : CallerTool) : Tool :=
  fun args kwargs ws =>
    let '(r, w) := f args kwargs ws.1 in (r, (w, ws.2)).

Definition reserved_tool
    (f : list Value -> Kwargs -> Dict -> ToolResult * Dict) : Tool :=
  fun args kwargs ws =>
    let '(r, st) := f args kwargs ws.2 in (r, (ws.1, st)).

Record MontyCodeInterpreter := {
  _tools : gmap string CallerTool;
  _type_check : bool;
  _type_check_stubs : option string;
  _limits : option ResourceLimits;
  _state : Dict;
  output_fields : option (list OutputField);
}.

(** [__init__] *)
Definition init (tools : option (gmap string CallerTool)) (type_check : bool)
    (type_check_stubs : option string) (limits : option ResourceLimits)
  : MontyCodeInterpreter :=
  {| _tools := default ∅ tools;
     _type_check := type_check;
     _type_check_stubs := type_check_stubs;
     _limits := limits;
     _state := ∅;
     output_fields := None |}.

Definition with_state (self : MontyCodeInterpreter) (st : Dict)
  : MontyCodeInterpreter :=
  {| _tools := _tools self;
     _type_check := _type_check self;
     _type_check_stubs := _type_check_stubs self;
     _limits := _limits self;
     _state := st;
     output_fields := output_fields self |}.

(** [self.tools[name] = f], as the host does between turns. *)
Definition register_tool (self : MontyCodeInterpreter) (name : string)
    (f : CallerTool) : MontyCodeInterpreter :=
  {| _tools := <[name := f]> (_tools self);
     _type_check := _type_check self;
     _type_check_stubs := _type_check_stubs self;
     _limits := _limits self;
     _state := _state self;
     output_fields := output_fields self |}.

(** [start]: the state is emptied. *)
Definition interpreter_start (self : MontyCodeInterpreter)
  : MontyCodeInterpreter :=
  with_state self ∅.

(** [all_tools]: a copy of the caller's tools, then the three reserved
    entries. *)
Definition all_tools (self : MontyCodeInterpreter) : gmap string Tool :=
  <["SUBMIT" := reserved_tool _submit]>
    (<["CLEAR" := reserved_tool _clear]>
       (<["SAVE" := reserved_tool _save]> (caller_tool <$> _tools self))).

(** [merged_vars]: the caller's variables, when there are any, then the
    state. *)
Definition merged_vars (variables : option Dict) (st : Dict) : Dict :=
  let merged : Dict := ∅ in
  let merged :=
    match variables with
    | Some vars =>
        if decide (vars = ∅) then merged else dict_merge merged vars
    | None => merged
    end in
  dict_merge merged st.

(** [list(d)]: the keys, in the order of the map (Python's insertion order
    is not kept). *)
Definition keys {A} (d : gmap string A) : list string := (map_to_list d).*1.

(** [d or None] *)
Definition or_none (d : Dict) : option Dict :=
  if decide (d = ∅) then None else Some d.

(** [_capture_print] appends the text; the stream is ignored. *)
Definition _capture_print (stdout_parts : list string) (_stream text : string)
  : list string :=
  stdout_parts ++ [text].

Definition capture (stdout_parts : list string) (emitted : Emitted)
  : list string :=
  foldl (fun parts e => _capture_print parts e.1 e.2) stdout_parts emitted.

(** Truth value of a list: empty is false. *)
Definition nonempty {A} (l : list A) : bool :=
  match l with
  | [] => false
  | _ :: _ => true
  end.

(** The body of the [SUBMIT] branch: the keyword arguments, then the
    positional ones under the declared field names.  [output_fields] is
    false both when it is [None] and when it is empty. *)
Definition submit_kwargs (fields : option (list OutputField))
    (args : list Value) (kwargs : Kwargs) : Dict :=
  let submit_kwargs := dict kwargs in
  if nonempty args && nonempty (default [] fields) then
    let field_names := field_name <$> default [] fields in
    foldl (fun d nv => setdefault d nv.1 nv.2) submit_kwargs
          (zip field_names args)
  else submit_kwargs.

(** The configuration of a turn inside the loop. *)
Record Config := {
  progress : Progress Suspended;
  world : World;
  state : Dict;
  stdout_parts : list string;
}.

Inductive Step :=
| Continue (c : Config)
| Finish (o : Outcome) (w : World) (st : Dict).

(** One pass through the body of the [while] loop. *)
Definition loop_body (tools : gmap string Tool)
    (fields : option (list OutputField)) (c : Config) : Step :=
  match progress c with
  | MontySnapshot function_name args kwargs suspended =>
      if decide (function_name = "SUBMIT") then
        Finish (Return (FinalOutput (submit_kwargs fields args kwargs)))
               (world c) (state c)
      else
        match (tools !! function_name : option Tool) with
        | None =>
            Finish (Raise (CodeInterpreterError
                             ("Unknown function: " +:+ function_name) None))
                   (world c) (state c)
        | Some func =>
            let failed e :=
              Raise (CodeInterpreterError
                       ("Tool " +:+ function_name +:+ " failed: " +:+ str e)
                       (Some e)) in
            match func args kwargs (world c, state c) with
            | (Failed e, (w, st)) => Finish (failed e) w st
            | (Escaped cls msg, (w, st)) =>
                Finish (Raise (Uncaught cls msg)) w st
            | (Returned result, (w, st)) =>
                match resume suspended result with
                | (_, inl e) => Finish (failed e) w st
                | (emitted, inr progress') =>
                    Continue {| progress := progress';
                                world := w;
                                state := st;
                                stdout_parts :=
                                  capture (stdout_parts c) emitted |}
                end
            end
        end
  | _ =>
      Finish (Raise (CodeInterpreterError "Async futures not supported" None))
             (world c) (state c)
  end.

(** The value returned after the loop. *)
Definition captured_output (stdout_parts : list string) : Result :=
  match stdout_parts with
  | [] => PyNone
  | _ :: _ => PyStr (join "" stdout_parts)
  end.

(** The [while] loop and the [return] after it; [fuel] bounds the number of
    passes. *)
Fixpoint loop (fuel : nat) (tools : gmap string Tool)
    (fields : option (list OutputField)) (c : Config)
  : option (Outcome * World * Dict) :=
  match progress c with
  | MontyComplete _ =>
      Some (Return (captured_output (stdout_parts c)), world c, state c)
  | _ =>
      match fuel with
      | O => None
      | S fuel' =>
          match loop_body tools fields c with
          | Finish o w st => Some (o, w, st)
          | Continue c' => loop fuel' tools fields c'
          end
      end
  end.

(** [execute]: the outcome, the host and the interpreter afterwards, or
    [None] when [fuel] passes of the loop do not end the turn. *)
Definition execute (fuel : nat) (self : MontyCodeInterpreter) (w : World)
    (code : string) (variables : option Dict)
  : option (Outcome * World * MontyCodeInterpreter) :=
  let all_tools := all_tools self in
  let merged_vars := merged_vars variables (_state self) in
  match Monty code (keys merged_vars) (keys all_tools)
              (_type_check self) (_type_check_stubs self) with
  | inl (RefusedSyntax msg) =>
      Some (Raise (SyntaxError msg (MontySyntaxError msg)), w, self)
  | inl (RefusedTyping msg) =>
      Some (Raise (CodeInterpreterError msg (Some (MontyTypingError msg))),
            w, self)
  | inr monty =>
      match start monty (or_none merged_vars) (_limits self) with
      | (_, inl msg) =>
          Some (Raise (CodeInterpreterError msg
                         (Some (MontyRuntimeError msg))), w, self)
      | (emitted, inr progress) =>
          match loop fuel all_tools (output_fields self)
                     {| progress := progress; world := w;
                        state := _state self;
                        stdout_parts := capture [] emitted |} with
          | Some (o, w', st) => Some (o, w', with_state self st)
          | None => None
          end
      end
  end.

(** *** The course of a turn *)

(** The store after one pass of the loop. *)
Definition step_state (s : Step) : Dict :=
  match s with
  | Continue c => state c
  | Finish _ _ st => st
  end.

(** The pass of the loop that answers a suspension and resumes the
    session, when there is one. *)
Definition next (tools : gmap string Tool)
    (fields : option (list OutputField)) (c : Config) : option Config :=
  match progress c with
  | MontyComplete _ => None
  | _ =>
      match loop_body tools fields c with
      | Continue c' => Some c'
      | Finish _ _ _ => None
      end
  end.

(** The configuration after [n] such passes. *)
Fixpoint after (n : nat) (tools : gmap string Tool)
    (fields : option (list OutputField)) (c : Config) : option Config :=
  match n with
  | O => Some c
  | S n' =>
      match next tools fields c with
      | Some c' => after n' tools fields c'
      | None => None
      end
  end.

(** The configuration in which [execute] enters the loop. *)
Definition enters (self : MontyCodeInterpreter) (w : World)
    (code : string) (variables : option Dict) : option Config :=
  let merged_vars := merged_vars variables (_state self) in
  match Monty code (keys merged_vars) (keys (all_tools self))
              (_type_check self) (_type_check_stubs self) with
  | inl _ => None
  | inr monty =>
      match start monty (or_none merged_vars) (_limits self) with
      | (_, inl _) => None
      | (emitted, inr progress) =>
          Some {| progress := progress; world := w;
                  state := _state self;
                  stdout_parts := capture [] emitted |}
      end
  end.

(** The configuration of a turn after [n] answered suspensions. *)
Definition reaches (n : nat) (self : MontyCodeInterpreter) (w : World)
    (code : string) (variables : option Dict) : option Config :=
  match enters self w code variables with
  | Some c => after n (all_tools self) (output_fields self) c
  | None => None
  end.

(** *** The failures of a turn *)

Inductive FailureKind :=
| ParseFailure
| TypeValidationFailure
| RuntimeFailure
| UnknownCallable
| ToolFailure
| UnsupportedSuspension.

(** The exception in which [execute] reports a failure of each kind. *)
Definition raised_as (k : FailureKind) (e : Raised) : Prop :=
  match k with
  | ParseFailure =>
      exists msg, e = SyntaxError msg (MontySyntaxError msg)
  | TypeValidationFailure =>
      exists msg, e = CodeInterpreterError msg (Some (MontyTypingError msg))
  | RuntimeFailure =>
      exists msg, e = CodeInterpreterError msg (Some (MontyRuntimeError msg))
  | UnknownCallable =>
      exists name,
        e = CodeInterpreterError ("Unknown function: " +:+ name) None
  | ToolFailure =>
      exists name x,
        e = CodeInterpreterError
              ("Tool " +:+ name +:+ " failed: " +:+ str x) (Some x)
  | UnsupportedSuspension =>
      e = CodeInterpreterError "Async futures not supported" None
  end.

Definition class_of_kind (k : FailureKind) : ExceptionClass :=
  match k with
  | ParseFailure => SyntaxErrorClass
  | _ => CodeInterpreterErrorClass
  end.

End Bridge.

(** ** A scripted Monty

    A stand-in for [pydantic_monty] in which a program is a list of
    statements: enough to run the bridge on concrete turns. *)
Module Scripted.

(** The line feed that [print] appends. *)
Definition nl : string := String (Ascii.ascii_of_nat 10) EmptyString.

Inductive Stmt :=
| Print (text : string)
| PrintVar (name : string)
| Call (function_name : string) (args : list Value) (kwargs : Kwargs)
| PrintCall (function_name : string) (args : list Value) (kwargs : Kwargs)
| Await.

(** The text [print] writes for a value, without the newline. *)
Definition show (v : Value) : string :=
  match v with
  | VNone => "None"
  | VBool true => "True"
  | VBool false => "False"
  | VInt n => pretty n
  | VStr s => s
  | VList _ => "[...]"
  end.

(** Run up to the next suspension, the end, or the first unbound name.  A
    suspension keeps the inputs, whether the result of the call is to be
    printed, and the rest of the script. *)
Fixpoint run (inputs : Dict) (script : list Stmt)
  : Emitted * (string + Progress (Dict * bool * list Stmt)) :=
  match script with
  | [] => ([], inr (MontyComplete VNone))
  | Print text :: rest =>
      let '(emitted, r) := run inputs rest in
      (("stdout", text) :: emitted, r)
  | PrintVar name :: rest =>
      match inputs !! name with
      | Some v =>
          let '(emitted, r) := run inputs rest in
          (("stdout", show v +:+ nl) :: emitted, r)
      | None =>
          ([], inl ("NameError: name '" +:+ name +:+ "' is not defined"))
      end
  | Call function_name args kwargs :: rest =>
      ([], inr (MontySnapshot function_name args kwargs (inputs, false, rest)))
  | PrintCall function_name args kwargs :: rest =>
      ([], inr (MontySnapshot function_name args kwargs (inputs, true, rest)))
  | Await :: _ => ([], inr MontyFutureSnapshot)
  end.

(** The programs this Monty knows, by their source text. *)
Definition parse (programs : list (string * list Stmt)) (code : string)
  : MontyRefusal + list Stmt :=
  match list_find (fun p => p.1 = code) programs with
  | Some (_, (_, script)) => inr script
  | None => inl (RefusedSyntax "invalid syntax")
  end.

Definition platform (programs : list (string * list Stmt)) : Platform :=
  {| World := unit;
     ResourceLimits := unit;
     MontyProgram := list Stmt;
     Suspended := Dict * bool * list Stmt;
     Monty := fun code _ _ _ _ => parse programs code;
     start := fun script inputs _ => run (default ∅ inputs) script;
     resume := fun s result =>
       let '(inputs, echo, rest) := s in
       let printed :=
         if echo : bool then [("stdout", show result +:+ nl)] else [] in
       match run inputs rest with
       | (emitted, inl msg) => (printed ++ emitted, inl (MontyRuntimeError msg))
       | (emitted, inr p) => (printed ++ emitted, inr p)
       end;
     type_error_message := fun _ => "TypeError" |}.

(** The programs of the examples. *)
Definition programs : list (string * list Stmt) :=
  [ ("print(1 + 2)", [Print ("3" +:+ nl)]);
    ("pass", []);
    ("print(x)", [PrintVar "x"]);
    ("print(y)", [PrintVar "y"]);
    ("SAVE(x=1)", [Call "SAVE" [] [("x", VInt 1)]]);
    ("SAVE(x=2)", [Call "SAVE" [] [("x", VInt 2)]]);
    ("SAVE(x=1, y=2)", [Call "SAVE" [] [("x", VInt 1); ("y", VInt 2)]]);
    ("CLEAR('x')", [Call "CLEAR" [VStr "x"] []]);
    ("print('working'); SUBMIT(answer='42')",
     [Print ("working" +:+ nl); Call "SUBMIT" [] [("answer", VStr "42")]]);
    ("SUBMIT('42')", [Call "SUBMIT" [VStr "42"] []]);
    ("SUBMIT('a', 'b', 'c', first='kw')",
     [Call "SUBMIT" [VStr "a"; VStr "b"; VStr "c"] [("first", VStr "kw")]]);
    ("SAVE(x=1); boom()", [Call "SAVE" [] [("x", VInt 1)]; Call "boom" [] []]);
    ("boom()", [Call "boom" [] []]);
    ("greet('world'); print(x)",
     [Call "greet" [VStr "world"] []; PrintVar "x"]);
    ("print(greet('world'))", [PrintCall "greet" [VStr "world"] []]);
    ("missing()", [Call "missing" [] []]);
    ("await f()", [Await]) ].

Definition P : Platform := platform programs.

(** A suspension of the scripted Monty: the inputs, whether the result
    is printed, and the rest of the script. *)
Definition suspended (inputs : Dict) (echo : bool) (rest : list Stmt)
  : @Suspended P :=
  (inputs, echo, rest).

Definition config (p : Progress (@Suspended P)) (st : Dict)
    (parts : list string) : @Config P :=
  {| progress := p; world := tt; state := st; stdout_parts := parts |}.

(** A caller tool that returns a greeting and one that raises. *)
Definition greet : @CallerTool P :=
  fun args _ w =>
    match args with
    | [VStr name] => (Returned (VStr ("hello " +:+ name)), w)
    | _ => (Failed (TypeError (UnexpectedPositional "greet" (length args))), w)
    end.

Definition boom : @CallerTool P :=
  fun _ _ w => (Failed (ToolException "ValueError" "boom"), w).

(** [MontyCodeInterpreter(type_check=False)], as in the tests. *)
Definition interp : @MontyCodeInterpreter P :=
  @init P None false None None.

Definition interp_with (tools : gmap string (@CallerTool P))
    (fields : option (list OutputField)) (st : Dict)
  : @MontyCodeInterpreter P :=
  {| _tools := tools; _type_check := false; _type_check_stubs := None;
     _limits := None; _state := st; output_fields := fields |}.

End Scripted.

(** ** The rest of the interface *)

Section Lifecycle.
Context `{P : Platform}.

(** [shutdown] does nothing. *)
Definition shutdown (self : MontyCodeInterpreter) : MontyCodeInterpreter :=
  self.

(** [MontyRLM.__init__], for the interpreter it hands on to [RLM.__init__]:
    the one supplied, or a new one built from [type_check] and [limits]. *)
Definition MontyRLM_interpreter (interpreter : option MontyCodeInterpreter)
    (type_check : bool) (limits : option ResourceLimits)
  : MontyCodeInterpreter :=
  match interpreter with
  | Some i => i
  | None => init None type_check None limits
  end.

(** The function a configuration is suspended on, [progress.function_name],
    when it is suspended on a call. *)
Definition requested (c : Config) : option string :=
  match progress c with
  | MontySnapshot function_name _ _ _ => Some function_name
  | _ => None
  end.

End Lifecycle.

(** Turns of the scripted Monty that use the reserved tools against their
    signatures, or break after a [SAVE]. *)
Module Misuse.

Definition programs : list (string * list Scripted.Stmt) :=
  [ ("SAVE(1, x=2)", [Scripted.Call "SAVE" [VInt 1] [("x", VInt 2)]]);
    ("CLEAR('x', y=1)",
     [Scripted.Call "CLEAR" [VStr "x"] [("y", VInt 1)]]);
    ("SAVE(x=1); print(y)",
     [Scripted.Call "SAVE" [] [("x", VInt 1)]; Scripted.PrintVar "y"]);
    ("print('a'); tick(); print('b')",
     [Scripted.Print "a"; Scripted.Call "tick" [] []; Scripted.Print "b"]) ].

Definition P : Platform := Scripted.platform programs.

Definition suspended (inputs : Dict) (echo : bool)
    (rest : list Scripted.Stmt) : @Suspended P :=
  (inputs, echo, rest).

Definition config (p : Progress (@Suspended P)) (st : Dict)
    (parts : list string) : @Config P :=
  {| progress := p; world := tt; state := st; stdout_parts := parts |}.

(** A caller tool that returns [None]. *)
Definition tick : @CallerTool P :=
  fun _ _ w => (Returned VNone, w).

Definition interp_with (tools : gmap string (@CallerTool P))
    (fields : option (list OutputField)) (st : Dict)
  : @MontyCodeInterpreter P :=
  {| _tools := tools; _type_check := false; _type_check_stubs := None;
     _limits := None; _state := st; output_fields := fields |}.

End Misuse.

(** A turn of the scripted Monty in which a tool is interrupted. *)
Module Escape.

Definition programs : list (string * list Scripted.Stmt) :=
  [ ("SAVE(x=1); stop()",
     [Scripted.Call "SAVE" [] [("x", VInt 1)];
      Scripted.Call "stop" [] []]) ].

Definition P : Platform := Scripted.platform programs.

Definition suspended (inputs : Dict) (echo : bool)
    (rest : list Scripted.Stmt) : @Suspended P :=
  (inputs, echo, rest).

Definition config (p : Progress (@Suspended P)) (st : Dict)
    (parts : list string) : @Config P :=
  {| progress := p; world := tt; state := st; stdout_parts := parts |}.

(** A caller tool that is interrupted from the keyboard. *)
Definition stop : @CallerTool P :=
  fun _ _ w => (Escaped "KeyboardInterrupt" "", w).

Definition interp_with (tools : gmap string (@CallerTool P))
    (fields : option (list OutputField)) (st : Dict)
  : @MontyCodeInterpreter P :=
  {| _tools := tools; _type_check := false; _type_check_stubs := None;
     _limits := None; _state := st; output_fields := fields |}.

End Escape.

(** * Properties *)

(** ** Dictionaries *)

Lemma dict_update_union (d : Dict) (kwargs : Kwargs) :
  dict_update d kwargs = dict kwargs ∪ d.
Proof.
  revert d. induction kwargs as [|[k v] kwargs IH]; intros d.
  - unfold dict, dict_update. simpl. by rewrite (left_id_L ∅ (∪)).
  - unfold dict. change (dict_update d ((k, v) :: kwargs))
      with (dict_update (<[k := v]> d) kwargs).
    change (dict_update ∅ ((k, v) :: kwargs))
      with (dict_update (<[k := v]> ∅) kwargs).
    rewrite (IH (<[k := v]> d)), (IH (<[k := v]> ∅)).
    rewrite <-(assoc_L (∪)). f_equal.
    by rewrite <-insert_union_l, (left_id_L ∅ (∪)).
Qed.

Lemma dict_update_lookup (d : Dict) (kwargs : Kwargs) (k : string) :
  dict_update d kwargs !! k
  = match dict kwargs !! k with Some v => Some v | None => d !! k end.
Proof.
  rewrite dict_update_union, lookup_union.
  destruct (dict kwargs !! k), (d !! k); done.
Qed.

Lemma dict_lookup_None (kwargs : Kwargs) (k : string) :
  k ∉ kwargs.*1 -> dict kwargs !! k = None.
Proof.
  induction kwargs as [|[a b] l IHl]; intros Hni; [done|].
  unfold dict.
  change (dict_update ∅ ((a, b) :: l)) with (dict_update (<[a := b]> ∅) l).
  rewrite dict_update_lookup.
  apply not_elem_of_cons in Hni as [Hne Hni].
  rewrite (IHl Hni). by rewrite lookup_insert_ne.
Qed.

(** With distinct keys, as in every Python call, [dict kwargs] holds exactly
    the pairs of [kwargs]. *)
Lemma dict_lookup_Some (kwargs : Kwargs) (k : string) (v : Value) :
  NoDup kwargs.*1 -> (k, v) ∈ kwargs -> dict kwargs !! k = Some v.
Proof.
  induction kwargs as [|[k' v'] kwargs IH]; intros Hnd Hin.
  - by apply elem_of_nil in Hin.
  - apply NoDup_cons in Hnd as [Hk' Hnd]. simpl in Hk'.
    unfold dict.
    change (dict_update ∅ ((k', v') :: kwargs))
      with (dict_update (<[k' := v']> ∅) kwargs).
    rewrite dict_update_lookup.
    apply elem_of_cons in Hin as [Heq|Hin].
    + injection Heq as -> ->.
      by rewrite (dict_lookup_None _ _ Hk'), lookup_insert_eq.
    + by rewrite (IH Hnd Hin).
Qed.

Lemma setdefault_union (d : Dict) (name : string) (value : Value) :
  setdefault d name value = d ∪ {[name := value]}.
Proof.
  unfold setdefault. destruct (d !! name) as [x|] eqn:E.
  - apply map_eq. intros i. rewrite lookup_union.
    destruct (decide (i = name)) as [->|Hne].
    + by rewrite E, lookup_singleton_eq.
    + rewrite lookup_singleton_ne by done. by destruct (d !! i).
  - by apply insert_union_singleton_r.
Qed.

Lemma setdefault_fold (d : Dict) (pairs : list (string * Value)) :
  foldl (fun d nv => setdefault d nv.1 nv.2) d pairs = d ∪ list_to_map pairs.
Proof.
  revert d. induction pairs as [|[k v] pairs IH]; intros d; simpl.
  - by rewrite (right_id_L ∅ (∪)).
  - rewrite IH, setdefault_union, <-(assoc_L (∪)).
    by rewrite <-insert_union_singleton_l.
Qed.

Lemma zip_to_map_lookup (names : list string) (args : list Value)
    (i : nat) (name : string) :
  NoDup names -> names !! i = Some name ->
  (list_to_map (zip names args) : Dict) !! name = args !! i.
Proof.
  revert args i. induction names as [|n0 names IH]; intros args i Hnd Hi.
  - done.
  - apply NoDup_cons in Hnd as [Hn0 Hnd].
    destruct args as [|a args]; [by destruct i|].
    simpl. destruct i as [|i]; simpl in *.
    + injection Hi as ->. by rewrite lookup_insert_eq.
    + rewrite lookup_insert_ne.
      * by apply IH.
      * intros ->. apply Hn0. by eapply list_elem_of_lookup_2.
Qed.

Lemma zip_to_map_None (names : list string) (args : list Value) (k : string) :
  k ∉ names -> (list_to_map (zip names args) : Dict) !! k = None.
Proof.
  revert args. induction names as [|n0 names IH]; intros args Hni; [done|].
  apply not_elem_of_cons in Hni as [Hne Hni].
  destruct args as [|a args]; [done|]. simpl.
  rewrite lookup_insert_ne by done. by apply IH.
Qed.

(** ** The loop *)

Section BridgeFacts.
Context `{P : Platform}.

Implicit Types (self : MontyCodeInterpreter) (c : Config) (st : Dict).
Implicit Types (tools : gmap string Tool).
Implicit Types (fields : option (list OutputField)).

Lemma merged_vars_lookup (variables : option Dict) st (k : string) :
  merged_vars variables st !! k
  = match st !! k with
    | Some v => Some v
    | None => default ∅ variables !! k
    end.
Proof.
  unfold merged_vars, dict_merge.
  destruct variables as [vars|]; simpl; [case_decide as Hv|].
  - subst vars. rewrite (right_id_L ∅ (∪)). by destruct (st !! k).
  - rewrite (right_id_L ∅ (∪)), lookup_union.
    by destruct (st !! k), (vars !! k).
  - rewrite (right_id_L ∅ (∪)). by destruct (st !! k).
Qed.

Lemma capture_app (parts : list string) (emitted : Emitted) :
  capture parts emitted = parts ++ emitted.*2.
Proof.
  revert parts. induction emitted as [|[s t] emitted IH]; intros parts.
  - unfold capture. simpl. by rewrite app_nil_r.
  - unfold capture in *. simpl. rewrite IH. unfold _capture_print. simpl.
    by rewrite <-app_assoc.
Qed.

Lemma loop_next fuel tools fields c c' :
  next tools fields c = Some c' ->
  loop (S fuel) tools fields c = loop fuel tools fields c'.
Proof.
  unfold next. simpl. destruct (progress c); [done| |];
    destruct (loop_body tools fields c); intros [=]; by subst.
Qed.

Lemma loop_after n fuel tools fields c c' :
  after n tools fields c = Some c' ->
  loop (n + fuel) tools fields c = loop fuel tools fields c'.
Proof.
  revert c. induction n as [|n IH]; intros c; simpl after.
  - by intros [= ->].
  - destruct (next tools fields c) as [c1|] eqn:E; [|done].
    intros H. change (S n + fuel) with (S (n + fuel)).
    rewrite (loop_next _ _ _ _ _ E). by apply IH.
Qed.

Lemma loop_complete fuel tools fields c v :
  progress c = MontyComplete v ->
  loop fuel tools fields c
  = Some (Return (captured_output (stdout_parts c)), world c, state c).
Proof. intros H. destruct fuel; simpl; by rewrite H. Qed.

Lemma loop_finish fuel tools fields c o w st :
  (forall v, progress c <> MontyComplete v) ->
  loop_body tools fields c = Finish o w st ->
  loop (S fuel) tools fields c = Some (o, w, st).
Proof.
  intros Hc H. simpl. rewrite H.
  destruct (progress c) as [v| |]; [by destruct (Hc v)|done|done].
Qed.

Lemma execute_reaches n fuel self w code variables c :
  reaches n self w code variables = Some c ->
  execute (n + fuel) self w code variables
  = match loop fuel (all_tools self) (output_fields self) c with
    | Some (o, w', st) => Some (o, w', with_state self st)
    | None => None
    end.
Proof.
  unfold reaches, enters, execute.
  destruct (Monty _ _ _ _ _) as [r|monty]; [done|].
  destruct (start _ _ _) as [emitted [msg|p]]; [done|].
  intros H. by rewrite (loop_after _ _ _ _ _ _ H).
Qed.

(** The [SUBMIT] branch of the loop body. *)
Lemma loop_body_submit tools fields c args kwargs suspended :
  progress c = MontySnapshot "SUBMIT" args kwargs suspended ->
  loop_body tools fields c
  = Finish (Return (FinalOutput (submit_kwargs fields args kwargs)))
           (world c) (state c).
Proof. intros H. unfold loop_body. by rewrite H. Qed.

Lemma execute_submit n fuel self w code variables c args kwargs suspended :
  reaches n self w code variables = Some c ->
  progress c = MontySnapshot "SUBMIT" args kwargs suspended ->
  n < fuel ->
  execute fuel self w code variables
  = Some (Return (FinalOutput
                    (submit_kwargs (output_fields self) args kwargs)),
          world c, with_state self (state c)).
Proof.
  intros Hr Hp Hlt.
  replace fuel with (n + S (fuel - S n)) by lia.
  rewrite (execute_reaches _ _ _ _ _ _ _ Hr).
  rewrite (loop_finish _ _ _ _ _ _ _ ltac:(by rewrite Hp)
             (loop_body_submit _ _ _ _ _ _ Hp)).
  done.
Qed.

(** The final output in closed form. *)
Lemma submit_kwargs_union (fs : list OutputField) (args : list Value)
    (kwargs : Kwargs) :
  submit_kwargs (Some fs) args kwargs
  = dict kwargs ∪ list_to_map (zip (field_name <$> fs) args).
Proof.
  unfold submit_kwargs. simpl.
  destruct args as [|a args]; simpl.
  - rewrite zip_with_nil_r. simpl. by rewrite (right_id_L ∅ (∪)).
  - destruct fs as [|f fs]; simpl.
    + by rewrite (right_id_L ∅ (∪)).
    + rewrite setdefault_fold, setdefault_union, <-(assoc_L (∪)).
      by rewrite <-insert_union_singleton_l.
Qed.

Lemma submit_kwargs_no_schema (args : list Value) (kwargs : Kwargs) :
  submit_kwargs None args kwargs = dict kwargs.
Proof. unfold submit_kwargs. simpl. by rewrite andb_false_r. Qed.

Lemma submit_kwargs_keeps_keywords fields (args : list Value)
    (kwargs : Kwargs) (k : string) (v : Value) :
  dict kwargs !! k = Some v ->
  submit_kwargs fields args kwargs !! k = Some v.
Proof.
  intros H. destruct fields as [fs|].
  - rewrite submit_kwargs_union. by apply lookup_union_Some_l.
  - by rewrite submit_kwargs_no_schema.
Qed.

Lemma submit_kwargs_positional (fs : list OutputField) (args : list Value)
    (kwargs : Kwargs) (i : nat) (name : string) :
  NoDup (field_name <$> fs) ->
  (field_name <$> fs) !! i = Some name ->
  dict kwargs !! name = None ->
  submit_kwargs (Some fs) args kwargs !! name = args !! i.
Proof.
  intros Hnd Hi Hk. rewrite submit_kwargs_union, lookup_union_r by done.
  by apply zip_to_map_lookup.
Qed.

End BridgeFacts.

(** ** SUBMIT *)

Section Submit.
Context `{P : Platform}.

(** C1. Whenever a turn arrives at a suspension that requests [SUBMIT],
    [execute] returns at once, with enough fuel for the passes made so far
    and this one: the result is a [FinalOutput] that holds every keyword
    binding of the call unchanged and, when output fields are declared,
    the positional arguments under the field names of the same position
    that no keyword binds.  The text captured so far is not part of the
    result: the same output is produced whatever [stdout_parts] holds. *)
Theorem submit_ends_turn n fuel (self : MontyCodeInterpreter) w code
    variables (c : Config) args kwargs suspended :
  reaches n self w code variables = Some c ->
  progress c = MontySnapshot "SUBMIT" args kwargs suspended ->
  n < fuel ->
  let out := submit_kwargs (output_fields self) args kwargs in
  execute fuel self w code variables
  = Some (Return (FinalOutput out), world c, with_state self (state c))
  /\ (forall k v, dict kwargs !! k = Some v -> out !! k = Some v)
  /\ (forall fs i name,
        output_fields self = Some fs ->
        NoDup (field_name <$> fs) ->
        (field_name <$> fs) !! i = Some name ->
        dict kwargs !! name = None ->
        out !! name = args !! i)
  /\ (forall parts,
        loop_body (all_tools self) (output_fields self)
          {| progress := progress c; world := world c; state := state c;
             stdout_parts := parts |}
        = Finish (Return (FinalOutput out)) (world c) (state c)).
Proof.
  intros Hr Hp Hlt out. repeat split.
  - by eapply execute_submit.
  - intros k v. apply submit_kwargs_keeps_keywords.
  - intros fs i name Hf. subst out. rewrite Hf.
    apply submit_kwargs_positional.
  - intros parts. by erewrite loop_body_submit.
Qed.

(** C3, as the code has it.  With no output fields declared, a [SUBMIT]
    suspension still ends the turn with a [FinalOutput]; it holds exactly
    the keyword bindings of the call, and the positional arguments are
    left out. *)
Theorem submit_without_schema n fuel (self : MontyCodeInterpreter) w code
    variables (c : Config) args kwargs suspended :
  reaches n self w code variables = Some c ->
  progress c = MontySnapshot "SUBMIT" args kwargs suspended ->
  n < fuel ->
  output_fields self = None ->
  execute fuel self w code variables
  = Some (Return (FinalOutput (dict kwargs)), world c,
          with_state self (state c))
  /\ (forall k v, NoDup kwargs.*1 -> (k, v) ∈ kwargs ->
                  dict kwargs !! k = Some v)
  /\ (forall k, k ∉ kwargs.*1 -> dict kwargs !! k = None).
Proof.
  intros Hr Hp Hlt Hf. repeat split.
  - rewrite (execute_submit _ _ _ _ _ _ _ _ _ _ Hr Hp Hlt), Hf.
    by rewrite submit_kwargs_no_schema.
  - intros k v. apply dict_lookup_Some.
  - intros k. apply dict_lookup_None.
Qed.

(** C10. A [SUBMIT] suspension with output fields declared and more
    positional arguments than fields raises nothing: the arguments beyond
    the last field are dropped, a field bound by a keyword keeps the
    keyword's value, and every other field receives the positional argument
    of its own position, so the argument paired with a keyword-bound field
    is not passed on to a later field. *)
Theorem submit_surplus_positional_dropped tools (fs : list OutputField)
    (c : Config) args kwargs suspended :
  progress c = MontySnapshot "SUBMIT" args kwargs suspended ->
  length fs < length args ->
  let names := field_name <$> fs in
  let out := submit_kwargs (Some fs) args kwargs in
  loop_body tools (Some fs) c
  = Finish (Return (FinalOutput out)) (world c) (state c)
  /\ out = submit_kwargs (Some fs) (take (length fs) args) kwargs
  /\ out = dict kwargs ∪ list_to_map (zip names args)
  /\ (forall k, k ∉ kwargs.*1 -> k ∉ names -> out !! k = None)
  /\ (forall name v, dict kwargs !! name = Some v -> out !! name = Some v)
  /\ (NoDup names ->
      forall j name, names !! j = Some name ->
                     dict kwargs !! name = None ->
                     out !! name = args !! j).
Proof.
  intros Hp Hlen names out. repeat split.
  - by eapply loop_body_submit.
  - subst out. rewrite !submit_kwargs_union. do 2 f_equal.
    rewrite <-(length_fmap field_name fs).
    symmetry. apply zip_with_take_r.
  - apply submit_kwargs_union.
  - intros k Hk Hn. subst out. rewrite submit_kwargs_union.
    apply lookup_union_None. split.
    + by apply dict_lookup_None.
    + by apply zip_to_map_None.
  - intros name v. apply submit_kwargs_keeps_keywords.
  - intros Hnd j name. by apply submit_kwargs_positional.
Qed.

End Submit.

(** ** The tool registry and the reserved tools *)

Section Registry.
Context `{P : Platform}.

Implicit Types (self : MontyCodeInterpreter) (c : Config) (st : Dict).

Lemma all_tools_SAVE self :
  all_tools self !! "SAVE" = Some (reserved_tool _save).
Proof.
  unfold all_tools.
  rewrite lookup_insert_ne by done. rewrite lookup_insert_ne by done.
  apply lookup_insert_eq.
Qed.

Lemma all_tools_CLEAR self :
  all_tools self !! "CLEAR" = Some (reserved_tool _clear).
Proof.
  unfold all_tools. rewrite lookup_insert_ne by done.
  apply lookup_insert_eq.
Qed.

Lemma all_tools_SUBMIT self :
  all_tools self !! "SUBMIT" = Some (reserved_tool _submit).
Proof. unfold all_tools. by rewrite lookup_insert_eq. Qed.

Lemma all_tools_caller self (name : string) :
  name <> "SAVE" -> name <> "CLEAR" -> name <> "SUBMIT" ->
  all_tools self !! name = caller_tool <$> _tools self !! name.
Proof.
  intros. unfold all_tools.
  rewrite !lookup_insert_ne by done. apply lookup_fmap.
Qed.

Lemma all_tools_register_reserved self (name : string) (f : CallerTool) :
  name ∈ ["SAVE"; "CLEAR"; "SUBMIT"] ->
  all_tools (register_tool self name f) = all_tools self.
Proof.
  intros Hin. apply map_eq. intros k.
  destruct (decide (k = "SUBMIT")) as [->|H1];
    [by rewrite !all_tools_SUBMIT|].
  destruct (decide (k = "CLEAR")) as [->|H2];
    [by rewrite !all_tools_CLEAR|].
  destruct (decide (k = "SAVE")) as [->|H3];
    [by rewrite !all_tools_SAVE|].
  rewrite !all_tools_caller by done. simpl.
  rewrite lookup_insert_ne; [done|]. intros <-.
  apply elem_of_cons in Hin as [|Hin]; [done|].
  apply elem_of_cons in Hin as [|Hin]; [done|].
  apply elem_of_cons in Hin as [|Hin]; [done|].
  by apply elem_of_nil in Hin.
Qed.

(** What a pass of the loop does to the store when the suspension asks
    for a reserved tool. *)
Lemma loop_body_reserved tools fields c name args kwargs suspended f :
  progress c = MontySnapshot name args kwargs suspended ->
  name <> "SUBMIT" ->
  tools !! name = Some (reserved_tool f) ->
  step_state (loop_body tools fields c) = (f args kwargs (state c)).2.
Proof.
  intros Hp Hne Hl. unfold loop_body. rewrite Hp.
  rewrite decide_False by done. rewrite Hl. unfold reserved_tool. simpl.
  destruct (f args kwargs (state c)) as [[result|e|cls msg] st]; simpl;
    [|done|done].
  by destruct (resume suspended result) as [emitted [e|p]].
Qed.

(** C7. Whatever the caller registered, [all_tools] binds [SAVE], [CLEAR]
    and [SUBMIT] to the entries of the bridge, and every other name to the
    caller's tool; a caller tool registered under a reserved name changes
    neither the registry nor the course of any turn. *)
Theorem reserved_names_overwrite fuel self w code variables :
  all_tools self !! "SAVE" = Some (reserved_tool _save)
  /\ all_tools self !! "CLEAR" = Some (reserved_tool _clear)
  /\ all_tools self !! "SUBMIT" = Some (reserved_tool _submit)
  /\ (forall name,
        name <> "SAVE" -> name <> "CLEAR" -> name <> "SUBMIT" ->
        all_tools self !! name = caller_tool <$> _tools self !! name)
  /\ (forall name f,
        name ∈ ["SAVE"; "CLEAR"; "SUBMIT"] ->
        all_tools (register_tool self name f) = all_tools self
        /\ execute fuel (register_tool self name f) w code variables
           = (fun r => (r.1, register_tool r.2 name f))
               <$> execute fuel self w code variables).
Proof.
  split; [apply all_tools_SAVE|].
  split; [apply all_tools_CLEAR|].
  split; [apply all_tools_SUBMIT|].
  split; [apply all_tools_caller|].
  intros name f Hin.
  pose proof (all_tools_register_reserved self name f Hin) as Heq.
  split; [done|].
  unfold execute. rewrite Heq. simpl.
  destruct (Monty _ _ _ _ _) as [[msg|msg]|monty]; [done|done|].
  destruct (start _ _ _) as [emitted [msg|p]]; [done|].
  by destruct (loop _ _ _ _) as [[[o w'] st]|].
Qed.

Lemma pop_each_strings (names : list string) st :
  pop_each (VStr <$> names) st
  = (None, foldl (fun m n => delete n m) st names).
Proof.
  revert st. induction names as [|n names IH]; intros st; [done|].
  rewrite fmap_cons. cbn [pop_each foldl]. by rewrite IH.
Qed.

Lemma foldl_delete_lookup (names : list string) st (k : string) :
  foldl (fun m n => delete n m) st names !! k
  = if decide (k ∈ names) then None else st !! k.
Proof.
  revert st. induction names as [|n names IH]; intros st.
  - destruct (decide (k ∈ [])) as [H|]; [by apply elem_of_nil in H|done].
  - change (foldl (fun m n => delete n m) st (n :: names))
      with (foldl (fun m n => delete n m) (delete n st) names).
    rewrite IH. destruct (decide (k = n)) as [->|Hne].
    + rewrite lookup_delete_eq.
      destruct (decide (n ∈ names)), (decide (n ∈ n :: names)) as [|Hn];
        try done; destruct Hn; by left.
    + rewrite lookup_delete_ne by done.
      destruct (decide (k ∈ names)) as [Hk|Hk],
               (decide (k ∈ n :: names)) as [Hk'|Hk']; try done.
      * destruct Hk'. by right.
      * apply elem_of_cons in Hk' as [|]; done.
Qed.

Lemma join_values_strings (sep : string) (names : list string) :
  join_values sep (VStr <$> names) = inr (join sep names).
Proof.
  unfold join_values.
  assert (H : join_values_aux (VStr <$> names) = inr names).
  { induction names as [|n names IH]; [done|].
    rewrite fmap_cons. cbn [join_values_aux]. by rewrite IH. }
  by rewrite H.
Qed.

Lemma _clear_strings (names : list string) st :
  names <> [] ->
  _clear (VStr <$> names) [] st
  = (Returned (VStr ("Cleared: " +:+ join ", " names)),
     foldl (fun m n => delete n m) st names).
Proof.
  intros Hne. destruct names as [|n names]; [done|].
  unfold _clear.
  change (VStr <$> n :: names) with (VStr n :: (VStr <$> names)).
  cbv iota beta.
  change (VStr n :: (VStr <$> names)) with (VStr <$> n :: names).
  by rewrite pop_each_strings, join_values_strings.
Qed.


End Registry.

(** ** Turns *)

Section Turns.
Context `{P : Platform}.

Implicit Types (self : MontyCodeInterpreter) (c : Config) (st : Dict).
Implicit Types (tools : gmap string Tool).
Implicit Types (fields : option (list OutputField)).

(** What a pass that resumes the session has done. *)
Lemma next_inv tools fields c c' :
  next tools fields c = Some c' ->
  exists name args kwargs suspended func result emitted,
    progress c = MontySnapshot name args kwargs suspended
    /\ name <> "SUBMIT"
    /\ tools !! name = Some func
    /\ func args kwargs (world c, state c)
       = (Returned result, (world c', state c'))
    /\ resume suspended result = (emitted, inr (progress c'))
    /\ stdout_parts c' = stdout_parts c ++ emitted.*2.
Proof.
  unfold next, loop_body.
  destruct (progress c) as [v|name args kwargs suspended|] eqn:Hp;
    [done| |done].
  case_decide as Hn; [done|].
  destruct (tools !! name) as [func|] eqn:Hl; [|done].
  destruct (func args kwargs (world c, state c))
    as [[result|e|cls msg] [w st]] eqn:Hf; [|done|done].
  destruct (resume suspended result) as [emitted [e|p]] eqn:Hr; [done|].
  intros [= <-]. simpl.
  exists name, args, kwargs, suspended, func, result, emitted.
  by rewrite capture_app.
Qed.

Lemma after_S n tools fields c c' :
  after (S n) tools fields c = Some c' <->
  exists c0, after n tools fields c = Some c0
             /\ next tools fields c0 = Some c'.
Proof.
  revert c. induction n as [|n IH]; intros c.
  - simpl. split.
    + intros H. exists c. split; [done|].
      by destruct (next tools fields c).
    + intros (c0 & [= <-] & H). by rewrite H.
  - change (after (S (S n)) tools fields c)
      with (match next tools fields c with
            | Some c1 => after (S n) tools fields c1
            | None => None
            end).
    change (after (S n) tools fields c)
      with (match next tools fields c with
            | Some c1 => after n tools fields c1
            | None => None
            end).
    destruct (next tools fields c) as [c1|].
    + apply IH.
    + split; [done|]. by intros (c0 & H & _).
Qed.

Lemma reaches_S n self w code variables c' :
  reaches (S n) self w code variables = Some c' <->
  exists c0, reaches n self w code variables = Some c0
             /\ next (all_tools self) (output_fields self) c0 = Some c'.
Proof.
  unfold reaches. destruct (enters self w code variables) as [c|].
  - apply after_S.
  - split; [done|]. by intros (c0 & H & _).
Qed.

(** The loop body when the tool raises. *)
Lemma loop_body_tool_failed tools fields c name args kwargs suspended
    (func : Tool) e w' st' :
  progress c = MontySnapshot name args kwargs suspended ->
  name <> "SUBMIT" ->
  tools !! name = Some func ->
  func args kwargs (world c, state c) = (Failed e, (w', st')) ->
  loop_body tools fields c
  = Finish (Raise (CodeInterpreterError
                     ("Tool " +:+ name +:+ " failed: " +:+ str e) (Some e)))
           w' st'.
Proof.
  intros Hp Hn Hl Hf. unfold loop_body. rewrite Hp.
  rewrite decide_False by done. by rewrite Hl, Hf.
Qed.

Lemma pop_each_lookup (names : list Value) st r st' (k : string) :
  pop_each names st = (r, st') ->
  st' !! k = st !! k \/ (VStr k ∈ names /\ st' !! k = None).
Proof.
  revert st. induction names as [|v names IH]; intros st.
  - intros [= _ <-]. by left.
  - assert (Hskip : pop_each names st = (r, st') ->
                    st' !! k = st !! k
                    \/ (VStr k ∈ v :: names /\ st' !! k = None)).
    { intros H. destruct (IH _ H) as [|[Hin Hk]]; [by left|].
      right. split; [by right|done]. }
    destruct v as [|b|z|n|items]; cbn [pop_each]; try exact Hskip.
    + intros H. destruct (IH _ H) as [Hk|[Hin Hk]].
      * destruct (decide (k = n)) as [->|Hne].
        -- right. split; [by left|]. by rewrite Hk, lookup_delete_eq.
        -- left. by rewrite Hk, lookup_delete_ne.
      * right. split; [by right|done].
    + case_decide; [exact Hskip|]. intros [= _ <-]. by left.
Qed.

(** What a failing call of a registered tool leaves of the store. *)
Lemma failed_tool_state self name args kwargs (func : Tool) w st e w' st'
    (k : string) :
  name <> "SUBMIT" ->
  all_tools self !! name = Some func ->
  func args kwargs (w, st) = (Failed e, (w', st')) ->
  (name <> "CLEAR" -> st' = st)
  /\ (st' !! k = st !! k
      \/ (name = "CLEAR" /\ VStr k ∈ args /\ st' !! k = None)).
Proof.
  intros Hn Hl Hf.
  destruct (decide (name = "SAVE")) as [->|Hn1].
  { assert (Some func = Some (reserved_tool _save)) as [= ->]
      by (rewrite <-Hl; apply all_tools_SAVE).
    unfold reserved_tool, _save in Hf. simpl in Hf.
    destruct args; [done|]. injection Hf as _ _ <-. by split; [|left]. }
  destruct (decide (name = "CLEAR")) as [->|Hn2].
  { split; [done|].
    assert (Some func = Some (reserved_tool _clear)) as [= ->]
      by (rewrite <-Hl; apply all_tools_CLEAR).
    unfold reserved_tool, _clear in Hf. simpl in Hf.
    destruct kwargs as [|[key v] kwargs].
    - destruct args as [|a args]; [done|].
      destruct (pop_each (a :: args) st) as [[r|] st1] eqn:Hpop.
      + injection Hf as _ _ <-.
        destruct (pop_each_lookup _ _ _ _ k Hpop) as [|[? ?]];
          [by left|by right].
      + destruct (join_values ", " (a :: args)); [|done].
        injection Hf as _ _ <-.
        destruct (pop_each_lookup _ _ _ _ k Hpop) as [|[? ?]];
          [by left|by right].
    - injection Hf as _ _ <-. by left. }
  assert (Hc : caller_tool <$> _tools self !! name = Some func)
    by (rewrite <-Hl; symmetry; by apply all_tools_caller).
  destruct (_tools self !! name) as [f|]; [|done].
  injection Hc as <-. unfold caller_tool in Hf. simpl in Hf.
  destruct (f args kwargs w) as [r w1]. injection Hf as _ _ <-.
  by split; [|left].
Qed.

(** How a pass that resumes the session changes the store. *)
Lemma next_state self fields c c' name args kwargs suspended :
  next (all_tools self) fields c = Some c' ->
  progress c = MontySnapshot name args kwargs suspended ->
  state c'
  = if decide (name = "SAVE") then (_save args kwargs (state c)).2
    else if decide (name = "CLEAR") then (_clear args kwargs (state c)).2
    else state c.
Proof.
  intros Hnext Hp.
  apply next_inv in Hnext
    as (name' & args' & kwargs' & suspended' & func & result & emitted
        & Hp' & Hn & Hl & Hf & _ & _).
  rewrite Hp in Hp'. injection Hp' as <- <- <- <-.
  destruct (decide (name = "SAVE")) as [->|Hn1].
  { assert (Some func = Some (reserved_tool _save)) as [= ->]
      by (rewrite <-Hl; apply all_tools_SAVE).
    unfold reserved_tool in Hf. cbn [fst snd] in Hf.
    destruct (_save args kwargs (state c)) as [r st1].
    by injection Hf as _ _ <-. }
  destruct (decide (name = "CLEAR")) as [->|Hn2].
  { assert (Some func = Some (reserved_tool _clear)) as [= ->]
      by (rewrite <-Hl; apply all_tools_CLEAR).
    unfold reserved_tool in Hf. cbn [fst snd] in Hf.
    destruct (_clear args kwargs (state c)) as [r st1].
    by injection Hf as _ _ <-. }
  assert (Hc : caller_tool <$> _tools self !! name = Some func)
    by (rewrite <-Hl; symmetry; by apply all_tools_caller).
  destruct (_tools self !! name) as [f|]; [|done].
  injection Hc as <-. unfold caller_tool in Hf. cbn [fst snd] in Hf.
  destruct (f args kwargs (world c)) as [r w1].
  by injection Hf as _ _ <-.
Qed.

(** C8. When a registered tool raises, the turn fails with a
    [CodeInterpreterError] whose message names the tool and carries the
    text of the exception, which is also its cause.  The interpreter keeps
    the store as the failing call left it, which is the store the call
    found, but for names a failing [CLEAR] had already removed: nothing is
    rolled back, and the next turn's bindings are built from that store.
    The store the call found is the one built by the calls answered before
    it in the turn, each [SAVE] and [CLEAR] having changed it as these
    tools do and every other call having left it alone. *)
Theorem tool_failure_keeps_state n fuel self w code variables c
    name args kwargs suspended (func : Tool) e w' st' :
  reaches n self w code variables = Some c ->
  progress c = MontySnapshot name args kwargs suspended ->
  name <> "SUBMIT" ->
  all_tools self !! name = Some func ->
  func args kwargs (world c, state c) = (Failed e, (w', st')) ->
  n < fuel ->
  let self' := with_state self st' in
  execute fuel self w code variables
  = Some (Raise (CodeInterpreterError
                   ("Tool " +:+ name +:+ " failed: " +:+ str e) (Some e)),
          w', self')
  /\ (name <> "CLEAR" -> st' = state c)
  /\ (forall k, st' !! k = state c !! k
                \/ (name = "CLEAR" /\ VStr k ∈ args /\ st' !! k = None))
  /\ (forall variables' k v,
        st' !! k = Some v ->
        merged_vars variables' (_state self') !! k = Some v)
  /\ (forall m cm cm' name_m args_m kwargs_m suspended_m,
        reaches m self w code variables = Some cm ->
        reaches (S m) self w code variables = Some cm' ->
        progress cm = MontySnapshot name_m args_m kwargs_m suspended_m ->
        state cm'
        = if decide (name_m = "SAVE")
          then (_save args_m kwargs_m (state cm)).2
          else if decide (name_m = "CLEAR")
               then (_clear args_m kwargs_m (state cm)).2
               else state cm).
Proof.
  intros Hr Hp Hn Hl Hf Hlt self'.
  split.
  { replace fuel with (n + S (fuel - S n)) by lia.
    rewrite (execute_reaches _ _ _ _ _ _ _ Hr).
    pose proof (loop_body_tool_failed _ (output_fields self) _ _ _ _ _ _
                  _ _ _ Hp Hn Hl Hf) as Hb.
    by rewrite (loop_finish _ _ _ _ _ _ _ ltac:(by rewrite Hp) Hb). }
  split; [apply (failed_tool_state _ _ _ _ _ _ _ _ _ _ "" Hn Hl Hf)|].
  split; [intros k; apply (failed_tool_state _ _ _ _ _ _ _ _ _ _ k Hn Hl Hf)|].
  split.
  { intros variables' k v Hk. rewrite merged_vars_lookup.
    subst self'. simpl. by rewrite Hk. }
  intros m cm cm' name_m args_m kwargs_m suspended_m Hm Hm' Hpm.
  apply reaches_S in Hm' as (c0 & Hm0 & Hnext).
  rewrite Hm in Hm0. injection Hm0 as <-.
  by eapply next_state.
Qed.

End Turns.

(** ** Results and failures *)

Section Results.
Context `{P : Platform}.

Implicit Types (self : MontyCodeInterpreter) (c : Config) (st : Dict).
Implicit Types (tools : gmap string Tool).
Implicit Types (fields : option (list OutputField)).

Lemma enters_inv self w code variables c0 :
  enters self w code variables = Some c0 ->
  exists monty emitted,
    start monty (or_none (merged_vars variables (_state self)))
          (_limits self)
    = (emitted, inr (progress c0))
    /\ stdout_parts c0 = emitted.*2.
Proof.
  unfold enters.
  destruct (Monty _ _ _ _ _) as [r|monty]; [done|].
  destruct (start _ _ _) as [emitted [msg|p]] eqn:Hs; [done|].
  intros [= <-]. exists monty, emitted. simpl.
  by rewrite capture_app.
Qed.

(** C9. When the session completes, [execute] returns the captured
    fragments joined in the order of capture, and [None], which is not the
    empty string, when nothing was captured.  The fragments are those
    printed while the session started, followed pass by pass by those
    printed after each resumption. *)
Theorem normal_completion_returns_captured n fuel self w code variables
    c v :
  reaches n self w code variables = Some c ->
  progress c = MontyComplete v ->
  n <= fuel ->
  execute fuel self w code variables
  = Some (Return (captured_output (stdout_parts c)), world c,
          with_state self (state c))
  /\ (stdout_parts c = [] -> captured_output (stdout_parts c) = PyNone)
  /\ (stdout_parts c <> [] ->
      captured_output (stdout_parts c)
      = PyStr (String.concat "" (stdout_parts c)))
  /\ PyNone <> PyStr ""
  /\ (forall c0,
        reaches 0 self w code variables = Some c0 ->
        exists monty emitted,
          start monty (or_none (merged_vars variables (_state self)))
                (_limits self)
          = (emitted, inr (progress c0))
          /\ stdout_parts c0 = emitted.*2)
  /\ (forall m cm cm',
        reaches m self w code variables = Some cm ->
        reaches (S m) self w code variables = Some cm' ->
        exists suspended result emitted,
          resume suspended result = (emitted, inr (progress cm'))
          /\ stdout_parts cm' = stdout_parts cm ++ emitted.*2).
Proof.
  intros Hr Hp Hle. split.
  { replace fuel with (n + (fuel - n)) by lia.
    rewrite (execute_reaches _ _ _ _ _ _ _ Hr).
    by rewrite (loop_complete _ _ _ _ _ Hp). }
  split; [by intros ->|].
  split; [by destruct (stdout_parts c)|].
  split; [done|].
  split.
  { intros c0. unfold reaches.
    destruct (enters self w code variables) as [c1|] eqn:He; [|done].
    intros [= <-]. by eapply enters_inv. }
  intros m cm cm' Hm Hm'.
  apply reaches_S in Hm' as (c0 & Hm0 & Hnext).
  rewrite Hm in Hm0. injection Hm0 as <-.
  apply next_inv in Hnext
    as (name & args & kwargs & suspended & func & result & emitted
        & _ & _ & _ & _ & Hres & Hout).
  by exists suspended, result, emitted.
Qed.

End Results.

(** ** Concrete turns on the scripted Monty *)

(** The turns of [test_monty_rlm.py]. *)

Example test_execute_simple_expression :
  execute (P := Scripted.P) 1 Scripted.interp tt "print(1 + 2)" None
  = Some (Return (PyStr ("3" +:+ Scripted.nl)), tt, Scripted.interp).
Proof. reflexivity. Qed.

Example test_execute_with_tool :
  let self := Scripted.interp_with {["greet" := Scripted.greet]} None ∅ in
  execute (P := Scripted.P) 1 self tt "print(greet('world'))" None
  = Some (Return (PyStr ("hello world" +:+ Scripted.nl)), tt, self).
Proof. reflexivity. Qed.

Example test_save_persists_across_calls :
  exists self1,
    execute (P := Scripted.P) 1 Scripted.interp tt "SAVE(x=1)" None
    = Some (Return PyNone, tt, self1)
    /\ exists self2,
      execute (P := Scripted.P) 1 self1 tt "SAVE(x=2)" None
      = Some (Return PyNone, tt, self2)
      /\ execute (P := Scripted.P) 1 self2 tt "print(x)" None
         = Some (Return (PyStr ("2" +:+ Scripted.nl)), tt, self2).
Proof.
  eexists. split; [reflexivity|]. eexists. split; reflexivity.
Qed.

Example test_clear_removes_saved_state :
  exists self1,
    execute (P := Scripted.P) 1 Scripted.interp tt "SAVE(x=1, y=2)" None
    = Some (Return PyNone, tt, self1)
    /\ exists self2,
      execute (P := Scripted.P) 1 self1 tt "CLEAR('x')" None
      = Some (Return PyNone, tt, self2)
      /\ execute (P := Scripted.P) 1 self2 tt "print(y)" None
         = Some (Return (PyStr ("2" +:+ Scripted.nl)), tt, self2)
      /\ execute (P := Scripted.P) 1 self2 tt "print(x)" None
         = Some (Raise (CodeInterpreterError
                          "NameError: name 'x' is not defined"
                          (Some (MontyRuntimeError
                                   "NameError: name 'x' is not defined"))),
                 tt, self2).
Proof.
  eexists. split; [reflexivity|]. eexists. repeat split; reflexivity.
Qed.

(** A script that breaks after a tool has returned is reported under the
    name of that tool. *)
Example runtime_error_after_call_blames_tool :
  let self := Scripted.interp_with {["greet" := Scripted.greet]} None ∅ in
  execute (P := Scripted.P) 1 self tt "greet('world'); print(x)" None
  = Some (Raise (CodeInterpreterError
                   "Tool greet failed: NameError: name 'x' is not defined"
                   (Some (MontyRuntimeError
                            "NameError: name 'x' is not defined"))),
          tt, self).
Proof. reflexivity. Qed.

(** [SUBMIT] after a [print]: the printed text is not returned. *)
Lemma submit_ends_turn_witness :
  execute (P := Scripted.P) 1 Scripted.interp tt
    "print('working'); SUBMIT(answer='42')" None
  = Some (Return (FinalOutput {["answer" := VStr "42"]}), tt,
          Scripted.interp).
Proof.
  refine (proj1 (submit_ends_turn (P := Scripted.P) 0 1 Scripted.interp tt
                   "print('working'); SUBMIT(answer='42')" None
                   (Scripted.config
                      (MontySnapshot "SUBMIT" [] [("answer", VStr "42")]
                         (Scripted.suspended ∅ false []))
                      ∅ ["working" +:+ Scripted.nl])
                   [] [("answer", VStr "42")]
                   (Scripted.suspended ∅ false []) _ _ _));
    [reflexivity | reflexivity | lia].
Defined.

(** C3, as stated, fails: without declared output fields the positional
    argument of [SUBMIT('42')] is bound nowhere in the final output. *)
Lemma submit_positional_lost_without_schema :
  execute (P := Scripted.P) 1 Scripted.interp tt "SUBMIT('42')" None
  = Some (Return (FinalOutput ∅), tt, Scripted.interp)
  /\ ~ exists k, (∅ : Dict) !! k = Some (VStr "42").
Proof.
  split; [reflexivity|]. intros [k Hk]. by rewrite lookup_empty in Hk.
Qed.

Lemma submit_without_schema_witness :
  execute (P := Scripted.P) 1 Scripted.interp tt
    "SUBMIT('a', 'b', 'c', first='kw')" None
  = Some (Return (FinalOutput {["first" := VStr "kw"]}), tt, Scripted.interp).
Proof.
  refine (proj1 (submit_without_schema (P := Scripted.P) 0 1 Scripted.interp
                   tt "SUBMIT('a', 'b', 'c', first='kw')" None
                   (Scripted.config
                      (MontySnapshot "SUBMIT" [VStr "a"; VStr "b"; VStr "c"]
                         [("first", VStr "kw")]
                         (Scripted.suspended ∅ false []))
                      ∅ [])
                   [VStr "a"; VStr "b"; VStr "c"] [("first", VStr "kw")]
                   (Scripted.suspended ∅ false []) _ _ _ _));
    [reflexivity | reflexivity | lia | reflexivity].
Defined.

(** Three positional arguments for two fields, the first bound by a
    keyword: [a] and [c] are dropped and [b] goes to the second field. *)
Lemma submit_surplus_positional_dropped_witness :
  let fs := [ {| field_name := "first"; field_type := "str" |};
              {| field_name := "second"; field_type := "str" |} ] in
  let c := Scripted.config
             (MontySnapshot "SUBMIT" [VStr "a"; VStr "b"; VStr "c"]
                [("first", VStr "kw")] (Scripted.suspended ∅ false []))
             ∅ [] in
  loop_body (P := Scripted.P) ∅ (Some fs) c
  = Finish (Return (FinalOutput
                      (<["second" := VStr "b"]> {["first" := VStr "kw"]})))
           (world c) (state c).
Proof.
  intros fs c.
  refine (proj1 (submit_surplus_positional_dropped (P := Scripted.P) ∅ fs c
                   [VStr "a"; VStr "b"; VStr "c"] [("first", VStr "kw")]
                   (Scripted.suspended ∅ false []) _ _));
    [reflexivity | simpl; lia].
Defined.


(** A caller tool registered as [SAVE] does not replace the bridge's: the
    turn saves as before. *)
Lemma reserved_names_overwrite_witness :
  execute (P := Scripted.P) 1
    (register_tool Scripted.interp "SAVE" Scripted.boom) tt "SAVE(x=1)" None
  = Some (Return PyNone, tt,
          register_tool (with_state Scripted.interp {["x" := VInt 1]})
            "SAVE" Scripted.boom).
Proof.
  destruct (reserved_names_overwrite (P := Scripted.P) 1 Scripted.interp tt
              "SAVE(x=1)" None)
    as (_ & _ & _ & _ & H).
  destruct (H "SAVE" Scripted.boom ltac:(apply list_elem_of_here)) as [_ H2].
  exact H2.
Defined.

(** [SAVE(x=1); boom()]: the turn fails and [x] stays saved. *)
Lemma tool_failure_keeps_state_witness :
  let tools : gmap string CallerTool := {["boom" := Scripted.boom]} in
  execute (P := Scripted.P) 2 (Scripted.interp_with tools None ∅) tt
    "SAVE(x=1); boom()" None
  = Some (Raise (CodeInterpreterError "Tool boom failed: boom"
                   (Some (ToolException "ValueError" "boom"))),
          tt, Scripted.interp_with tools None {["x" := VInt 1]}).
Proof.
  intros tools.
  refine (proj1 (tool_failure_keeps_state (P := Scripted.P) 1 2
                   (Scripted.interp_with tools None ∅) tt
                   "SAVE(x=1); boom()" None
                   (Scripted.config
                      (MontySnapshot "boom" [] []
                         (Scripted.suspended ∅ false []))
                      {["x" := VInt 1]} [])
                   "boom" [] [] (Scripted.suspended ∅ false [])
                   (caller_tool Scripted.boom)
                   (ToolException "ValueError" "boom") tt {["x" := VInt 1]}
                   _ _ _ _ _ _));
    [reflexivity | reflexivity | discriminate | reflexivity | reflexivity
    | lia].
Defined.

(** [print(1 + 2)] returns the printed line. *)
Lemma normal_completion_returns_captured_witness :
  execute (P := Scripted.P) 0 Scripted.interp tt "print(1 + 2)" None
  = Some (Return (PyStr ("3" +:+ Scripted.nl)), tt, Scripted.interp).
Proof.
  refine (proj1 (normal_completion_returns_captured (P := Scripted.P) 0 0
                   Scripted.interp tt "print(1 + 2)" None
                   (Scripted.config (MontyComplete VNone) ∅
                      ["3" +:+ Scripted.nl])
                   VNone _ _ _));
    [reflexivity | reflexivity | lia].
Defined.

(** A suspension that is not a call of an external function. *)
Example future_snapshot_not_supported :
  execute (P := Scripted.P) 1 Scripted.interp tt "await f()" None
  = Some (Raise (CodeInterpreterError "Async futures not supported" None),
          tt, Scripted.interp).
Proof. reflexivity. Qed.

(** A turn that prints nothing returns [None]. *)
Example empty_turn_returns_None :
  execute (P := Scripted.P) 0 Scripted.interp tt "pass" None
  = Some (Return PyNone, tt, Scripted.interp).
Proof. reflexivity. Qed.

(** * Further properties of the bridge *)

(** ** How a turn ends *)

Section Endings.
Context `{P : Platform}.

Implicit Types (self : MontyCodeInterpreter) (c : Config) (st : Dict).
Implicit Types (tools : gmap string Tool).
Implicit Types (fields : option (list OutputField)).

(** The pass on which the loop stops. *)
Lemma loop_inv fuel tools fields c o w st :
  loop fuel tools fields c = Some (o, w, st) ->
  exists n c',
    n <= fuel
    /\ after n tools fields c = Some c'
    /\ ((exists v, progress c' = MontyComplete v
                   /\ o = Return (captured_output (stdout_parts c'))
                   /\ w = world c' /\ st = state c')
        \/ (n < fuel
            /\ (forall v, progress c' <> MontyComplete v)
            /\ loop_body tools fields c' = Finish o w st)).
Proof.
  revert c. induction fuel as [|fuel IH]; intros c H.
  - exists 0, c. split; [done|]. split; [done|]. left.
    simpl in H. destruct (progress c) as [v| |] eqn:Hp; [|done|done].
    injection H as <- <- <-. by exists v.
  - simpl in H. destruct (progress c) as [v|name args kwargs s|] eqn:Hp.
    + exists 0, c. split; [lia|]. split; [done|]. left.
      injection H as <- <- <-. exists v. by rewrite Hp.
    + destruct (loop_body tools fields c) as [c1|o1 w1 st1] eqn:Hb.
      * destruct (IH _ H) as (n & c' & Hn & Ha & Hend).
        exists (S n), c'. split; [lia|]. split.
        { simpl. unfold next. by rewrite Hp, Hb. }
        destruct Hend as [Hend|(Hlt & Hend)]; [by left|].
        right. split; [lia|done].
      * injection H as <- <- <-. exists 0, c.
        split; [lia|]. split; [done|]. right.
        split; [lia|]. split; [by rewrite Hp|done].
    + destruct (loop_body tools fields c) as [c1|o1 w1 st1] eqn:Hb.
      * destruct (IH _ H) as (n & c' & Hn & Ha & Hend).
        exists (S n), c'. split; [lia|]. split.
        { simpl. unfold next. by rewrite Hp, Hb. }
        destruct Hend as [Hend|(Hlt & Hend)]; [by left|].
        right. split; [lia|done].
      * injection H as <- <- <-. exists 0, c.
        split; [lia|]. split; [done|]. right.
        split; [lia|]. split; [by rewrite Hp|done].
Qed.

(** A turn fails before the loop, or it ends in a configuration it
    reaches. *)
Lemma execute_inv fuel self w code variables o w' self' :
  execute fuel self w code variables = Some (o, w', self') ->
  (enters self w code variables = None /\ w' = w /\ self' = self
   /\ exists e, o = Raise e
                /\ (raised_as ParseFailure e
                    \/ raised_as TypeValidationFailure e
                    \/ raised_as RuntimeFailure e))
  \/ exists n c st,
       n <= fuel
       /\ reaches n self w code variables = Some c
       /\ self' = with_state self st
       /\ ((exists v, progress c = MontyComplete v
                      /\ o = Return (captured_output (stdout_parts c))
                      /\ w' = world c /\ st = state c)
           \/ (n < fuel
               /\ (forall v, progress c <> MontyComplete v)
               /\ loop_body (all_tools self) (output_fields self) c
                  = Finish o w' st)).
Proof.
  unfold execute, reaches, enters.
  destruct (Monty _ _ _ _ _) as [[msg|msg]|monty].
  - intros [= <- <- <-]. left. repeat split; try done.
    eexists. split; [done|]. left. by exists msg.
  - intros [= <- <- <-]. left. repeat split; try done.
    eexists. split; [done|]. right; left. by exists msg.
  - destruct (start _ _ _) as [emitted [msg|p]].
    + intros [= <- <- <-]. left. repeat split; try done.
      eexists. split; [done|]. right; right. by exists msg.
    + destruct (loop _ _ _ _) as [[[o1 w1] st1]|] eqn:Hl; [|done].
      intros [= <- <- <-]. right.
      apply loop_inv in Hl as (n & c & Hn & Ha & Hend).
      by exists n, c, st1.
Qed.

(** A turn that reaches a configuration on which the loop body stops. *)
Lemma execute_finish n fuel self w code variables c o w' st' :
  reaches n self w code variables = Some c ->
  (forall v, progress c <> MontyComplete v) ->
  loop_body (all_tools self) (output_fields self) c = Finish o w' st' ->
  n < fuel ->
  execute fuel self w code variables = Some (o, w', with_state self st').
Proof.
  intros Hr Hc Hb Hlt.
  replace fuel with (n + S (fuel - S n)) by lia.
  rewrite (execute_reaches _ _ _ _ _ _ _ Hr).
  by rewrite (loop_finish _ _ _ _ _ _ _ Hc Hb).
Qed.

(** X1. A suspension on a name that is neither reserved nor registered by
    the caller fails the turn with [Unknown function: ] and the name, with
    no cause; the session is not resumed, and the host and the store stay
    as the earlier calls of the turn left them. *)
Theorem unknown_function_fails n fuel self w code variables c
    name args kwargs suspended :
  reaches n self w code variables = Some c ->
  progress c = MontySnapshot name args kwargs suspended ->
  name <> "SAVE" -> name <> "CLEAR" -> name <> "SUBMIT" ->
  _tools self !! name = None ->
  n < fuel ->
  execute fuel self w code variables
  = Some (Raise (CodeInterpreterError ("Unknown function: " +:+ name) None),
          world c, with_state self (state c)).
Proof.
  intros Hr Hp Hn1 Hn2 Hn3 Hl Hlt.
  eapply execute_finish; eauto; [by rewrite Hp|].
  unfold loop_body. rewrite Hp, decide_False by done.
  assert (Hnone : all_tools self !! name = None)
    by (by rewrite all_tools_caller, Hl).
  by rewrite Hnone.
Qed.

(** X2. A suspension that is not a call of an external function fails the
    turn with [Async futures not supported]; the host and the store stay
    as the earlier calls of the turn left them. *)
Theorem future_snapshot_fails n fuel self w code variables c :
  reaches n self w code variables = Some c ->
  progress c = MontyFutureSnapshot ->
  n < fuel ->
  execute fuel self w code variables
  = Some (Raise (CodeInterpreterError "Async futures not supported" None),
          world c, with_state self (state c)).
Proof.
  intros Hr Hp Hlt.
  eapply execute_finish; eauto; [by rewrite Hp|].
  unfold loop_body. by rewrite Hp.
Qed.

(** X3. When Monty refuses the code or the session fails as it starts, the
    turn fails whatever the fuel, before any pass of the loop: no tool has
    run, and the host and the interpreter are exactly as before. *)
Theorem failure_before_loop_is_clean self w code variables :
  enters self w code variables = None ->
  exists e,
    (forall fuel,
       execute fuel self w code variables = Some (Raise e, w, self))
    /\ (raised_as ParseFailure e
        \/ raised_as TypeValidationFailure e
        \/ raised_as RuntimeFailure e).
Proof.
  unfold enters, execute.
  destruct (Monty _ _ _ _ _) as [[msg|msg]|monty].
  - intros _. eexists. split; [done|]. left. by exists msg.
  - intros _. eexists. split; [done|]. right; left. by exists msg.
  - destruct (start _ _ _) as [emitted [msg|p]]; [|done].
    intros _. eexists. split; [done|]. right; right. by exists msg.
Qed.

End Endings.

(** ** What changes the store, and what a result tells *)

Section Store.
Context `{P : Platform}.

Implicit Types (self : MontyCodeInterpreter) (c : Config) (st : Dict).

Lemma reaches_0 self w code variables c :
  reaches 0 self w code variables = Some c ->
  enters self w code variables = Some c.
Proof. unfold reaches. by destruct (enters self w code variables). Qed.

Lemma enters_state self w code variables c :
  enters self w code variables = Some c ->
  state c = _state self /\ world c = w.
Proof.
  unfold enters.
  destruct (Monty _ _ _ _ _) as [r|monty]; [done|].
  destruct (start _ _ _) as [emitted [msg|p]]; [done|].
  by intros [= <-].
Qed.

Lemma with_state_same self : with_state self (_state self) = self.
Proof. by destruct self. Qed.

(** The store a stopping pass leaves when the call is not for [SAVE] or
    [CLEAR]. *)
Lemma loop_body_finish_state self fields c o w st :
  loop_body (all_tools self) fields c = Finish o w st ->
  requested c <> Some "SAVE" ->
  requested c <> Some "CLEAR" ->
  st = state c.
Proof.
  unfold loop_body, requested.
  destruct (progress c) as [v|name args kwargs suspended|];
    [by intros [= _ _ <-]| |by intros [= _ _ <-]].
  intros H Hn1 Hn2.
  assert (Hs : name <> "SAVE") by congruence.
  assert (Hc : name <> "CLEAR") by congruence.
  case_decide as Hsub; [by injection H as _ _ <-|].
  destruct (all_tools self !! name) as [func|] eqn:Hl;
    [|by injection H as _ _ <-].
  assert (Hf : caller_tool <$> _tools self !! name = Some func)
    by (rewrite <-Hl; symmetry; by apply all_tools_caller).
  destruct (_tools self !! name) as [f|]; [|done].
  injection Hf as <-. unfold caller_tool in H. cbn [fst snd] in H.
  destruct (f args kwargs (world c)) as [[result|e|cls msg] w1];
    [|by injection H as _ _ <-|by injection H as _ _ <-].
  destruct (resume suspended result) as [emitted [e|p]]; [|done].
  by injection H as _ _ <-.
Qed.

(** The store of a turn in which no call so far was for [SAVE] or
    [CLEAR]. *)
Lemma reaches_state_unchanged n self w code variables c :
  (forall m cm, m < n -> reaches m self w code variables = Some cm ->
                requested cm <> Some "SAVE"
                /\ requested cm <> Some "CLEAR") ->
  reaches n self w code variables = Some c ->
  state c = _state self.
Proof.
  revert c. induction n as [|n IH]; intros c Hno Hr.
  - apply reaches_0 in Hr. by apply enters_state in Hr as [? _].
  - apply reaches_S in Hr as (c0 & Hr0 & Hnext).
    destruct (Hno n c0 ltac:(lia) Hr0) as [Hs Hc].
    pose proof Hnext as Hinv.
    apply next_inv in Hinv
      as (name & args & kwargs & suspended & _ & _ & _ & Hp & _).
    rewrite (next_state _ _ _ _ _ _ _ _ Hnext Hp).
    unfold requested in Hs, Hc. rewrite Hp in Hs, Hc.
    rewrite !decide_False by congruence.
    apply IH; [|done]. intros m cm Hm. apply Hno. lia.
Qed.

(** X4. The store is changed by [SAVE] and [CLEAR] only: a turn in which
    no suspension asks for one of them returns the interpreter as it was,
    whatever the caller's variables and tools and however the turn ends. *)
Theorem store_changed_only_by_save_and_clear fuel self w code variables
    o w' self' :
  execute fuel self w code variables = Some (o, w', self') ->
  (forall m cm, reaches m self w code variables = Some cm ->
                requested cm <> Some "SAVE"
                /\ requested cm <> Some "CLEAR") ->
  self' = self.
Proof.
  intros He Hno.
  apply execute_inv in He
    as [(_ & _ & -> & _)|(n & c & st & Hn & Hr & -> & Hend)]; [done|].
  assert (Hst : state c = _state self).
  { eapply reaches_state_unchanged; [|exact Hr].
    intros m cm _. apply Hno. }
  destruct (Hno n c Hr) as [Hs Hc].
  destruct Hend as [(v & _ & _ & _ & ->)|(_ & _ & Hb)].
  - rewrite Hst. apply with_state_same.
  - rewrite (loop_body_finish_state _ _ _ _ _ _ Hb Hs Hc), Hst.
    apply with_state_same.
Qed.

(** X5. A [FinalOutput] is returned only for a [SUBMIT] suspension: the
    turn reached one, the output is built from its arguments, and the host
    and the store are as they were at that point. *)
Theorem final_output_only_by_submit fuel self w code variables out w' self' :
  execute fuel self w code variables
  = Some (Return (FinalOutput out), w', self') ->
  exists n c args kwargs suspended,
    n < fuel
    /\ reaches n self w code variables = Some c
    /\ progress c = MontySnapshot "SUBMIT" args kwargs suspended
    /\ out = submit_kwargs (output_fields self) args kwargs
    /\ w' = world c
    /\ self' = with_state self (state c).
Proof.
  intros He.
  apply execute_inv in He
    as [(_ & _ & _ & e & [=] & _)|(n & c & st & Hn & Hr & -> & Hend)].
  destruct Hend as [(v & _ & Ho & _)|(Hlt & _ & Hb)].
  { by destruct (stdout_parts c). }
  unfold loop_body in Hb.
  destruct (progress c) as [v|name args kwargs suspended|] eqn:Hp;
    [done| |done].
  case_decide as Hsub.
  - subst name. injection Hb as <- <- <-.
    by exists n, c, args, kwargs, suspended.
  - destruct (all_tools self !! name) as [func|]; [|done].
    destruct (func args kwargs (world c, state c))
      as [[result|e|cls msg] [w1 st1]]; [|done|done].
    by destruct (resume suspended result) as [emitted [e|p]].
Qed.

(** X6. Text or [None] is returned only when the session has completed:
    the result is then the text captured up to there, and it is [None]
    exactly when nothing was captured. *)
Theorem text_only_on_completion fuel self w code variables r w' self' :
  execute fuel self w code variables = Some (Return r, w', self') ->
  (forall out, r <> FinalOutput out) ->
  exists n c v,
    n <= fuel
    /\ reaches n self w code variables = Some c
    /\ progress c = MontyComplete v
    /\ r = captured_output (stdout_parts c)
    /\ (r = PyNone <-> stdout_parts c = [])
    /\ w' = world c
    /\ self' = with_state self (state c).
Proof.
  intros He Hr.
  apply execute_inv in He
    as [(_ & _ & _ & e & [=] & _)|(n & c & st & Hn & Hreach & -> & Hend)].
  destruct Hend as [(v & Hp & [= ->] & -> & ->)|(Hlt & _ & Hb)].
  - exists n, c, v. repeat split; try done.
    + by destruct (stdout_parts c).
    + by intros ->.
  - exfalso. unfold loop_body in Hb.
    destruct (progress c) as [v|name args kwargs suspended|]; [done| |done].
    case_decide as Hsub.
    + injection Hb as Ho _ _. by eapply Hr.
    + destruct (all_tools self !! name) as [func|]; [|done].
      destruct (func args kwargs (world c, state c))
        as [[result|e|cls msg] [w1 st1]]; [|done|done].
      by destruct (resume suspended result) as [emitted [e|p]].
Qed.

End Store.

(** ** Calls of tools *)

Section Calls.
Context `{P : Platform}.

Implicit Types (self : MontyCodeInterpreter) (c : Config) (st : Dict).

(** The loop body when the tool returns and the session raises as it is
    resumed. *)
Lemma loop_body_resume_failed tools fields c name args kwargs suspended
    (func : Tool) result w1 st1 emitted e :
  progress c = MontySnapshot name args kwargs suspended ->
  name <> "SUBMIT" ->
  tools !! name = Some func ->
  func args kwargs (world c, state c) = (Returned result, (w1, st1)) ->
  resume suspended result = (emitted, inl e) ->
  loop_body tools fields c
  = Finish (Raise (CodeInterpreterError
                     ("Tool " +:+ name +:+ " failed: " +:+ str e) (Some e)))
           w1 st1.
Proof.
  intros Hp Hn Hl Hf Hr. unfold loop_body. rewrite Hp.
  rewrite decide_False by done. by rewrite Hl, Hf, Hr.
Qed.

(** X7. When a tool returns and the session raises as it is resumed with
    the result, the turn fails in the words of a tool failure, under the
    name of the tool just called and with the session's exception as the
    cause.  What the tool did stays: after a [SAVE] the store holds the
    saved bindings, and after any caller tool it is as before. *)
Theorem resume_failure_reported_as_tool_failure n fuel self w code variables
    c name args kwargs suspended (func : Tool) result w1 st1 emitted e :
  reaches n self w code variables = Some c ->
  progress c = MontySnapshot name args kwargs suspended ->
  name <> "SUBMIT" ->
  all_tools self !! name = Some func ->
  func args kwargs (world c, state c) = (Returned result, (w1, st1)) ->
  resume suspended result = (emitted, inl e) ->
  n < fuel ->
  execute fuel self w code variables
  = Some (Raise (CodeInterpreterError
                   ("Tool " +:+ name +:+ " failed: " +:+ str e) (Some e)),
          w1, with_state self st1)
  /\ (name = "SAVE" -> st1 = dict_update (state c) kwargs)
  /\ (name <> "SAVE" -> name <> "CLEAR" -> st1 = state c).
Proof.
  intros Hr Hp Hn Hl Hf Hres Hlt. split; [|split].
  - eapply execute_finish; eauto; [by rewrite Hp|].
    eapply loop_body_resume_failed; eauto.
  - intros ->.
    assert (Some func = Some (reserved_tool _save)) as [= ->]
      by (rewrite <-Hl; apply all_tools_SAVE).
    unfold reserved_tool, _save in Hf. cbn [fst snd] in Hf.
    destruct args; [|done]. by injection Hf as _ _ <-.
  - intros Hn1 Hn2.
    assert (Hc : caller_tool <$> _tools self !! name = Some func)
      by (rewrite <-Hl; symmetry; by apply all_tools_caller).
    destruct (_tools self !! name) as [f|]; [|done].
    injection Hc as <-. unfold caller_tool in Hf. cbn [fst snd] in Hf.
    destruct (f args kwargs (world c)) as [r w2].
    by injection Hf as _ _ <-.
Qed.

(** X8. [SAVE] called with a positional argument and [CLEAR] called with
    a keyword argument are rejected as a call of a Python function is: the
    turn fails with a tool failure whose cause is the [TypeError], and the
    store is unchanged, so that no keyword binding given to such a [SAVE]
    is saved and no name given to such a [CLEAR] is removed. *)
Theorem reserved_tool_misuse_fails n fuel self w code variables c
    name args kwargs suspended :
  reaches n self w code variables = Some c ->
  progress c = MontySnapshot name args kwargs suspended ->
  (name = "SAVE" /\ args <> []) \/ (name = "CLEAR" /\ kwargs <> []) ->
  n < fuel ->
  exists reason,
    execute fuel self w code variables
    = Some (Raise (CodeInterpreterError
                     ("Tool " +:+ name +:+ " failed: "
                      +:+ type_error_message reason)
                     (Some (TypeError reason))),
            world c, with_state self (state c))
    /\ (name = "SAVE" ->
        reason = UnexpectedPositional "_save" (length args))
    /\ (name = "CLEAR" ->
        exists key v rest,
          kwargs = (key, v) :: rest
          /\ reason = UnexpectedKeyword "_clear" key).
Proof.
  intros Hr Hp [[-> Ha]|[-> Hk]] Hlt.
  - exists (UnexpectedPositional "_save" (length args)).
    split; [|split; [done|done]].
    eapply execute_finish; eauto; [by rewrite Hp|].
    change (type_error_message (UnexpectedPositional "_save" (length args)))
      with (str (TypeError (UnexpectedPositional "_save" (length args)))).
    refine (loop_body_tool_failed _ _ c "SAVE" args kwargs suspended
              (reserved_tool _save) _ _ _ Hp _ (all_tools_SAVE self) _);
      [done|].
    unfold reserved_tool, _save. cbn [fst snd]. by destruct args.
  - destruct kwargs as [|[key v] rest]; [done|].
    exists (UnexpectedKeyword "_clear" key).
    split; [|split; [done|]].
    + eapply execute_finish; eauto; [by rewrite Hp|].
      change (type_error_message (UnexpectedKeyword "_clear" key))
        with (str (TypeError (UnexpectedKeyword "_clear" key))).
      by refine (loop_body_tool_failed _ _ c "CLEAR" args _ suspended
                   (reserved_tool _clear) _ _ _ Hp _ (all_tools_CLEAR self)
                   _).
    + intros _. by exists key, v, rest.
Qed.

(** X9. A call of a tool of the caller: the tool is applied to the
    arguments of the suspension, the session is resumed with what the tool
    returned, the texts printed after the resumption are added after those
    captured before, the host is as the tool left it and the store is as
    it was. *)
Theorem caller_tool_call_resumes n self w code variables c
    name args kwargs suspended (f : CallerTool) result w1 emitted p :
  reaches n self w code variables = Some c ->
  progress c = MontySnapshot name args kwargs suspended ->
  name <> "SAVE" -> name <> "CLEAR" -> name <> "SUBMIT" ->
  _tools self !! name = Some f ->
  f args kwargs (world c) = (Returned result, w1) ->
  resume suspended result = (emitted, inr p) ->
  reaches (S n) self w code variables
  = Some {| progress := p; world := w1; state := state c;
            stdout_parts := stdout_parts c ++ emitted.*2 |}.
Proof.
  intros Hr Hp Hn1 Hn2 Hn3 Hl Hf Hres.
  apply reaches_S. exists c. split; [done|].
  unfold next, loop_body. rewrite Hp, decide_False by done.
  assert (Hl' : all_tools self !! name = Some (caller_tool f))
    by (by rewrite all_tools_caller, Hl).
  rewrite Hl'. unfold caller_tool. cbn [fst snd].
  by rewrite Hf, Hres, capture_app.
Qed.

(** X10. A tool registered on an existing interpreter under a name that is
    not reserved is what the registry holds for that name from the next
    turn on, instead of any tool registered under it before; every other
    entry of the registry and the store are untouched. *)
Theorem registered_tool_is_bound self (name : string) (f : CallerTool) :
  name <> "SAVE" -> name <> "CLEAR" -> name <> "SUBMIT" ->
  all_tools (register_tool self name f) !! name = Some (caller_tool f)
  /\ (forall k, k <> name ->
                all_tools (register_tool self name f) !! k
                = all_tools self !! k)
  /\ _state (register_tool self name f) = _state self
  /\ (forall g, register_tool (register_tool self name g) name f
                = register_tool self name f).
Proof.
  intros Hn1 Hn2 Hn3. split; [|split; [|split]].
  - rewrite all_tools_caller by done. simpl.
    by rewrite lookup_insert_eq.
  - intros k Hk.
    destruct (decide (k = "SUBMIT")) as [->|H1];
      [by rewrite !all_tools_SUBMIT|].
    destruct (decide (k = "CLEAR")) as [->|H2];
      [by rewrite !all_tools_CLEAR|].
    destruct (decide (k = "SAVE")) as [->|H3];
      [by rewrite !all_tools_SAVE|].
    rewrite !all_tools_caller by done. simpl.
    by rewrite lookup_insert_ne.
  - done.
  - intros g. unfold register_tool. simpl. by rewrite insert_insert_eq.
Qed.

End Calls.

(** ** What Monty is told, and the life of an interpreter *)

Section Declared.
Context `{P : Platform}.

Implicit Types (self : MontyCodeInterpreter) (st : Dict).

Lemma elem_of_keys {A} (m : gmap string A) (k : string) :
  k ∈ keys m <-> is_Some (m !! k).
Proof.
  unfold keys. rewrite list_elem_of_fmap. split.
  - intros ([k' v] & -> & Hin). apply elem_of_map_to_list in Hin.
    by exists v.
  - intros [v Hv]. exists (k, v). split; [done|].
    by apply elem_of_map_to_list.
Qed.

Lemma keys_nil {A} (m : gmap string A) : keys m = [] <-> m = ∅.
Proof.
  split.
  - intros Hk. apply map_empty. intros i.
    destruct (m !! i) as [v|] eqn:E; [|done].
    assert (Hin : i ∈ keys m) by (apply elem_of_keys; by exists v).
    rewrite Hk in Hin. by apply elem_of_nil in Hin.
  - intros ->. unfold keys. by rewrite map_to_list_empty.
Qed.

Lemma merged_vars_empty (variables : option Dict) st :
  merged_vars variables st = ∅ <-> st = ∅ /\ default ∅ variables = ∅.
Proof.
  split.
  - intros Hm. split; apply map_empty; intros i.
    + assert (H : merged_vars variables st !! i = None)
        by (by rewrite Hm, lookup_empty).
      rewrite merged_vars_lookup in H. by destruct (st !! i).
    + assert (H : merged_vars variables st !! i = None)
        by (by rewrite Hm, lookup_empty).
      rewrite merged_vars_lookup in H. by destruct (st !! i).
  - intros [-> Hv]. apply map_empty. intros i.
    by rewrite merged_vars_lookup, Hv, !lookup_empty.
Qed.

(** X11. The input names declared to Monty are the names bound in the
    store or in the caller's variables, each once; the session is started
    on [None] instead of a dictionary exactly when there is no such name,
    which is when the declared list is empty. *)
Theorem declared_inputs_are_bound_names (variables : option Dict) st :
  let bindings := merged_vars variables st in
  NoDup (keys bindings)
  /\ (forall k, k ∈ keys bindings <->
                is_Some (st !! k) \/ is_Some (default ∅ variables !! k))
  /\ (or_none bindings = None <-> st = ∅ /\ default ∅ variables = ∅)
  /\ (or_none bindings = None <-> keys bindings = [])
  /\ (or_none bindings <> None -> or_none bindings = Some bindings).
Proof.
  intros bindings. split; [apply NoDup_fst_map_to_list|].
  split.
  { intros k. rewrite elem_of_keys. subst bindings.
    rewrite merged_vars_lookup.
    destruct (st !! k) as [v|]; split; intros H.
    - left. by exists v.
    - by exists v.
    - by right.
    - by destruct H as [[? [=]]|]. }
  assert (Hnone : or_none bindings = None <-> bindings = ∅).
  { unfold or_none. case_decide; split; done. }
  split; [rewrite Hnone; apply merged_vars_empty|].
  split; [by rewrite Hnone, keys_nil|].
  unfold or_none. by case_decide.
Qed.

(** X12. The external functions declared to Monty are [SAVE], [CLEAR],
    [SUBMIT] and the names of the caller's tools, each once, whatever the
    caller registered. *)
Theorem declared_functions_are_reserved_and_caller_tools self :
  NoDup (keys (all_tools self))
  /\ (forall k, k ∈ keys (all_tools self) <->
                k ∈ ["SAVE"; "CLEAR"; "SUBMIT"]
                \/ is_Some (_tools self !! k)).
Proof.
  split; [apply NoDup_fst_map_to_list|].
  intros k. rewrite elem_of_keys.
  destruct (decide (k = "SUBMIT")) as [->|H1].
  { rewrite all_tools_SUBMIT. split; [intros _; left|by eexists].
    apply elem_of_cons; right. apply elem_of_cons; right.
    apply list_elem_of_here. }
  destruct (decide (k = "CLEAR")) as [->|H2].
  { rewrite all_tools_CLEAR. split; [intros _; left|by eexists].
    apply elem_of_cons; right. apply list_elem_of_here. }
  destruct (decide (k = "SAVE")) as [->|H3].
  { rewrite all_tools_SAVE. split; [intros _; left|by eexists].
    apply list_elem_of_here. }
  rewrite all_tools_caller by done.
  rewrite fmap_is_Some. split; [by right|].
  intros [Hin|]; [|done].
  apply elem_of_cons in Hin as [|Hin]; [done|].
  apply elem_of_cons in Hin as [|Hin]; [done|].
  apply elem_of_cons in Hin as [|Hin]; [done|].
  by apply elem_of_nil in Hin.
Qed.

(** X13. [start] forgets what was saved and nothing else: the next turn's
    bindings are the caller's variables alone, so that a name the caller
    does not pass is unbound whatever was saved under it, and the registry
    and the declared output fields are as before. *)
Theorem start_forgets_saved_state self (variables : option Dict) :
  let self0 := interpreter_start self in
  merged_vars variables (_state self0) = default ∅ variables
  /\ all_tools self0 = all_tools self
  /\ output_fields self0 = output_fields self
  /\ (forall k, default ∅ variables !! k = None ->
                merged_vars variables (_state self0) !! k = None).
Proof.
  intros self0. split; [|split; [done|split; [done|]]].
  - apply map_eq. intros k. rewrite merged_vars_lookup.
    subst self0. simpl. by rewrite lookup_empty.
  - intros k Hk. rewrite merged_vars_lookup.
    subst self0. simpl. by rewrite lookup_empty.
Qed.

(** X14. An RLM built without an interpreter gets one with an empty
    store, no output fields, the given [type_check] and [limits] and no
    caller tools, so that Monty is told of the three reserved functions
    only; an interpreter that is supplied is used as it is, and
    [type_check] and [limits] are then ignored. *)
Theorem rlm_default_interpreter (type_check : bool)
    (limits : option ResourceLimits) :
  let self := MontyRLM_interpreter None type_check limits in
  _state self = ∅
  /\ output_fields self = None
  /\ _type_check self = type_check
  /\ _limits self = limits
  /\ (forall k, k ∈ keys (all_tools self) <->
                k ∈ ["SAVE"; "CLEAR"; "SUBMIT"])
  /\ (forall variables,
        merged_vars variables (_state self) = default ∅ variables)
  /\ (forall i type_check' limits',
        MontyRLM_interpreter (Some i) type_check' limits' = i).
Proof.
  intros self.
  split; [done|]. split; [done|]. split; [done|]. split; [done|].
  split; [|split; [|done]].
  - intros k. split.
    + intros Hk. apply elem_of_keys in Hk.
      destruct (decide (k = "SUBMIT")) as [->|H1].
      { apply elem_of_cons; right. apply elem_of_cons; right.
        apply list_elem_of_here. }
      destruct (decide (k = "CLEAR")) as [->|H2].
      { apply elem_of_cons; right. apply list_elem_of_here. }
      destruct (decide (k = "SAVE")) as [->|H3].
      { apply list_elem_of_here. }
      rewrite all_tools_caller in Hk by done. simpl in Hk.
      rewrite lookup_empty in Hk. by destruct Hk.
    + intros Hin. apply elem_of_keys.
      apply elem_of_cons in Hin as [->|Hin];
        [rewrite all_tools_SAVE; by eexists|].
      apply elem_of_cons in Hin as [->|Hin];
        [rewrite all_tools_CLEAR; by eexists|].
      apply elem_of_cons in Hin as [->|Hin];
        [rewrite all_tools_SUBMIT; by eexists|].
      by apply elem_of_nil in Hin.
  - intros variables. apply map_eq. intros k. rewrite merged_vars_lookup.
    subst self. simpl. by rewrite lookup_empty.
Qed.

End Declared.

(** ** How SAVE and CLEAR compose *)

Lemma dict_lookup_is_Some (kwargs : Kwargs) (k : string) :
  is_Some (dict kwargs !! k) <-> k ∈ kwargs.*1.
Proof.
  split.
  - intros Hs. destruct (decide (k ∈ kwargs.*1)) as [|Hni]; [done|].
    rewrite (dict_lookup_None _ _ Hni) in Hs. by destruct Hs.
  - induction kwargs as [|[a b] l IH]; intros Hin.
    + by apply elem_of_nil in Hin.
    + unfold dict.
      change (dict_update ∅ ((a, b) :: l))
        with (dict_update (<[a := b]> ∅) l).
      rewrite dict_update_lookup.
      destruct (dict l !! k) as [v|] eqn:E; [by eexists|].
      apply elem_of_cons in Hin as [->|Hin].
      * rewrite lookup_insert_eq. by eexists.
      * by destruct (IH Hin) as [? [=]].
Qed.

(** X15. [CLEAR] of the names a [SAVE] has just stored removes them and
    leaves the other names as they were before the [SAVE]; the store is
    back to what it was exactly when none of the names was bound before. *)
Theorem clear_undoes_save (kwargs : Kwargs) (st : Dict) :
  kwargs <> [] ->
  let saved := (_save [] kwargs st).2 in
  let cleared := (_clear (VStr <$> kwargs.*1) [] saved).2 in
  (forall k, k ∈ kwargs.*1 -> cleared !! k = None)
  /\ (forall k, k ∉ kwargs.*1 -> cleared !! k = st !! k)
  /\ (cleared = st <-> forall k, k ∈ kwargs.*1 -> st !! k = None).
Proof.
  intros Hne saved cleared.
  assert (Hnames : kwargs.*1 <> []) by (by destruct kwargs).
  assert (Hl : forall k, cleared !! k
                         = if decide (k ∈ kwargs.*1) then None
                           else st !! k).
  { intros k. unfold cleared, saved.
    rewrite _clear_strings by done. cbn [snd _save].
    rewrite foldl_delete_lookup. case_decide as Hk; [done|].
    by rewrite dict_update_lookup, (dict_lookup_None _ _ Hk). }
  split; [intros k Hk; by rewrite Hl, decide_True|].
  split; [intros k Hk; by rewrite Hl, decide_False|].
  split.
  - intros Heq k Hk. rewrite <-Heq. by rewrite Hl, decide_True.
  - intros Hfree. apply map_eq. intros k. rewrite Hl.
    case_decide as Hk; [by rewrite Hfree|done].
Qed.

(** X16. Repeating a [SAVE] or a [CLEAR] with the same arguments changes
    nothing further. *)
Theorem save_and_clear_are_idempotent (kwargs : Kwargs)
    (names : list string) (st : Dict) :
  (_save [] kwargs (_save [] kwargs st).2).2 = (_save [] kwargs st).2
  /\ (_clear (VStr <$> names) [] (_clear (VStr <$> names) [] st).2).2
     = (_clear (VStr <$> names) [] st).2.
Proof.
  split.
  - cbn [_save snd]. rewrite !dict_update_union.
    by rewrite (assoc_L (∪)), (idemp_L (∪)).
  - destruct names as [|n names]; [done|].
    rewrite !_clear_strings by done. cbn [snd].
    apply map_eq. intros k. rewrite !foldl_delete_lookup.
    by case_decide.
Qed.


(** ** CLEAR with names that are not strings *)




Lemma _clear_cons (a : Value) (args : list Value) (st : Dict) :
  _clear (a :: args) [] st
  = match pop_each (a :: args) st with
    | (Some r, st') => (Failed (TypeError r), st')
    | (None, st') =>
        match join_values ", " (a :: args) with
        | inr names => (Returned (VStr ("Cleared: " +:+ names)), st')
        | inl r => (Failed (TypeError r), st')
        end
    end.
Proof. done. Qed.

Lemma pop_each_after_strings (before : list string) (rest : list Value)
    (st : Dict) :
  pop_each ((VStr <$> before) ++ rest) st
  = pop_each rest (foldl (fun m n => delete n m) st before).
Proof.
  revert st. induction before as [|n before IH]; intros st; [done|].
  rewrite fmap_cons. cbn [app pop_each foldl]. apply IH.
Qed.

Lemma pop_each_empty (names : list Value) : pop_each names ∅ = (None, ∅).
Proof.
  induction names as [|v names IH]; [done|].
  destruct v as [|b|z|n|items]; cbn [pop_each];
    rewrite ?delete_empty, ?decide_True by done; done.
Qed.

Lemma join_values_aux_list (before : list string) (items after : list Value) :
  join_values_aux ((VStr <$> before) ++ VList items :: after)
  = inl (JoinExpectedStr (VList items)).
Proof.
  induction before as [|n before IH]; [done|].
  rewrite fmap_cons. cbn [app join_values_aux]. by rewrite IH.
Qed.

(** X19. [CLEAR] given a list among its names, after string names, fails
    in both cases the code has.  When the store still holds a name as the
    list is reached, the call stops there with the [TypeError] of an
    unhashable key, and the names after the list are not looked at.  When
    the store is empty by then, [pop] returns its default without hashing,
    the loop runs to its end and the call fails with the [TypeError] of
    [join] on the list.  Either way the string names before the list have
    been removed and no other name has. *)
Theorem clear_unhashable_name_stops (before : list string)
    (items after : list Value) (st : Dict) :
  let args := (VStr <$> before) ++ VList items :: after in
  let st1 := foldl (fun m n => delete n m) st before in
  (st1 <> ∅ ->
   _clear args [] st = (Failed (TypeError (Unhashable (VList items))), st1))
  /\ (st1 = ∅ ->
      _clear args [] st
      = (Failed (TypeError (JoinExpectedStr (VList items))), ∅))
  /\ (forall k, k ∈ before -> st1 !! k = None)
  /\ (forall k, k ∉ before -> st1 !! k = st !! k).
Proof.
  intros args st1.
  assert (Hc : _clear args [] st
               = match pop_each args st with
                 | (Some r, st') => (Failed (TypeError r), st')
                 | (None, st') =>
                     match join_values ", " args with
                     | inr names =>
                         (Returned (VStr ("Cleared: " +:+ names)), st')
                     | inl r => (Failed (TypeError r), st')
                     end
                 end).
  { unfold args. destruct before; apply _clear_cons. }
  assert (Hp : pop_each args st = pop_each (VList items :: after) st1)
    by apply pop_each_after_strings.
  split; [|split; [|split]].
  - intros Hne. rewrite Hc, Hp. cbn [pop_each].
    by rewrite decide_False.
  - intros He. rewrite Hc, Hp, He. cbn [pop_each].
    rewrite decide_True, pop_each_empty by done.
    unfold join_values, args. by rewrite join_values_aux_list.
  - intros k Hk. unfold st1. rewrite foldl_delete_lookup.
    by apply decide_True.
  - intros k Hk. unfold st1. rewrite foldl_delete_lookup.
    by apply decide_False.
Qed.

(** ** The names of a final output *)

Lemma zip_to_map_is_Some (names : list string) (args : list Value)
    (k : string) :
  is_Some ((list_to_map (zip names args) : Dict) !! k)
  <-> exists i, i < length args /\ names !! i = Some k.
Proof.
  revert args. induction names as [|n0 names IH]; intros args.
  - simpl. rewrite lookup_empty. split; [by intros [? [=]]|].
    by intros (i & _ & [=]).
  - destruct args as [|a args].
    + simpl. rewrite lookup_empty. split; [by intros [? [=]]|].
      intros (i & Hi & _). simpl in Hi. lia.
    + simpl. destruct (decide (k = n0)) as [->|Hne].
      * rewrite lookup_insert_eq. split; [|by eexists].
        intros _. exists 0. split; [lia|done].
      * rewrite lookup_insert_ne by done. rewrite IH. split.
        -- intros (i & Hi & Hn). exists (S i). split; [lia|done].
        -- intros ([|i] & Hi & Hn); simpl in Hn; [congruence|].
           exists i. split; [lia|done].
Qed.

(** X20. The names bound in a final output are the keywords of the
    [SUBMIT] call and the declared fields that have a positional argument
    at their position, and no other: with fewer positional arguments than
    fields the later fields are absent, and an empty list of fields, like
    no positional argument, gives the keyword bindings alone. *)
Theorem submit_output_names (fields : option (list OutputField))
    (args : list Value) (kwargs : Kwargs) :
  (forall k,
     is_Some (submit_kwargs fields args kwargs !! k)
     <-> k ∈ kwargs.*1
         \/ exists i, i < length args
                      /\ (field_name <$> default [] fields) !! i = Some k)
  /\ submit_kwargs (Some []) args kwargs = dict kwargs
  /\ submit_kwargs fields [] kwargs = dict kwargs.
Proof.
  split; [|split].
  - intros k. destruct fields as [fs|].
    + rewrite submit_kwargs_union. simpl.
      rewrite <-dict_lookup_is_Some, <-zip_to_map_is_Some.
      rewrite lookup_union.
      destruct (dict kwargs !! k) as [x|],
               (list_to_map (zip (field_name <$> fs) args) !! k) as [y|];
        simpl; split; intros H; try (by eexists); try (by left);
        try (by right).
      by destruct H as [[? [=]]|[? [=]]].
    + rewrite submit_kwargs_no_schema, dict_lookup_is_Some. simpl.
      split; [by left|]. intros [|(i & _ & [=])]. done.
  - rewrite submit_kwargs_union. simpl. apply (right_id_L ∅ (∪)).
  - unfold submit_kwargs. done.
Qed.

(** ** Concrete turns for the further properties *)

(** [missing()] with no such tool. *)
Lemma unknown_function_fails_witness :
  execute (P := Scripted.P) 1 Scripted.interp tt "missing()" None
  = Some (Raise (CodeInterpreterError "Unknown function: missing" None),
          tt, Scripted.interp).
Proof.
  refine (unknown_function_fails (P := Scripted.P) 0 1 Scripted.interp tt
            "missing()" None
            (Scripted.config
               (MontySnapshot "missing" [] []
                  (Scripted.suspended ∅ false []))
               ∅ [])
            "missing" [] [] (Scripted.suspended ∅ false [])
            _ _ _ _ _ _ _);
    [reflexivity | reflexivity | discriminate | discriminate | discriminate
    | reflexivity | lia].
Defined.

Lemma future_snapshot_fails_witness :
  execute (P := Scripted.P) 1 Scripted.interp tt "await f()" None
  = Some (Raise (CodeInterpreterError "Async futures not supported" None),
          tt, Scripted.interp).
Proof.
  refine (future_snapshot_fails (P := Scripted.P) 0 1 Scripted.interp tt
            "await f()" None
            (Scripted.config MontyFutureSnapshot ∅ []) _ _ _);
    [reflexivity | reflexivity | lia].
Defined.

(** Code that the scripted Monty does not know is refused for its syntax,
    here with a store that binds [x]. *)
Lemma failure_before_loop_is_clean_witness :
  let self := Scripted.interp_with ∅ None {["x" := VInt 1]} in
  exists e,
    (forall fuel,
       execute (P := Scripted.P) fuel self tt "nonsense" None
       = Some (Raise e, tt, self))
    /\ (raised_as (P := Scripted.P) ParseFailure e
        \/ raised_as (P := Scripted.P) TypeValidationFailure e
        \/ raised_as (P := Scripted.P) RuntimeFailure e).
Proof.
  intros self.
  exact (failure_before_loop_is_clean (P := Scripted.P) self tt "nonsense"
           None eq_refl).
Defined.

(** A turn that calls [greet] and prints leaves the store alone. *)
Lemma store_changed_only_by_save_and_clear_witness :
  let self :=
    Scripted.interp_with {["greet" := Scripted.greet]} None
      {["x" := VInt 1]} in
  execute (P := Scripted.P) 1 self tt "print(greet('world'))" None
  = Some (Return (PyStr ("hello world" +:+ Scripted.nl)), tt, self)
  /\ self = self.
Proof.
  intros self. split; [reflexivity|].
  refine (store_changed_only_by_save_and_clear (P := Scripted.P) 1 self tt
            "print(greet('world'))" None
            (Return (PyStr ("hello world" +:+ Scripted.nl))) tt self
            eq_refl _).
  intros [|[|m]] cm H.
  - change (Some (Scripted.config
                    (MontySnapshot "greet" [VStr "world"] []
                       (Scripted.suspended {["x" := VInt 1]} true []))
                    {["x" := VInt 1]} [])
            = Some cm) in H.
    injection H as <-. split; discriminate.
  - change (Some (Scripted.config (MontyComplete VNone) {["x" := VInt 1]}
                    ["hello world" +:+ Scripted.nl])
            = Some cm) in H.
    injection H as <-. split; discriminate.
  - change (None = Some cm) in H. discriminate.
Defined.

Lemma final_output_only_by_submit_witness :
  exists n (c : @Config Scripted.P) args kwargs suspended,
    n < 1
    /\ reaches n Scripted.interp tt
         "print('working'); SUBMIT(answer='42')" None = Some c
    /\ progress c = MontySnapshot "SUBMIT" args kwargs suspended
    /\ ({["answer" := VStr "42"]} : Dict)
       = submit_kwargs (output_fields Scripted.interp) args kwargs
    /\ tt = world c
    /\ Scripted.interp = with_state Scripted.interp (state c).
Proof.
  exact (final_output_only_by_submit (P := Scripted.P) 1 Scripted.interp tt
           "print('working'); SUBMIT(answer='42')" None
           {["answer" := VStr "42"]} tt Scripted.interp eq_refl).
Defined.

Lemma text_only_on_completion_witness :
  exists n (c : @Config Scripted.P) v,
    n <= 0
    /\ reaches n Scripted.interp tt "print(1 + 2)" None = Some c
    /\ progress c = MontyComplete v
    /\ PyStr ("3" +:+ Scripted.nl) = captured_output (stdout_parts c)
    /\ (PyStr ("3" +:+ Scripted.nl) = PyNone <-> stdout_parts c = [])
    /\ tt = world c
    /\ Scripted.interp = with_state Scripted.interp (state c).
Proof.
  refine (text_only_on_completion (P := Scripted.P) 0 Scripted.interp tt
            "print(1 + 2)" None (PyStr ("3" +:+ Scripted.nl)) tt
            Scripted.interp eq_refl _).
  intros out. discriminate.
Defined.

(** [SAVE(x=1); print(y)] with [y] unbound: the failure is reported under
    [SAVE], and [x] is saved. *)
Lemma resume_failure_reported_as_tool_failure_witness :
  execute (P := Misuse.P) 1 (Misuse.interp_with ∅ None ∅) tt
    "SAVE(x=1); print(y)" None
  = Some (Raise (CodeInterpreterError
                   "Tool SAVE failed: NameError: name 'y' is not defined"
                   (Some (MontyRuntimeError
                            "NameError: name 'y' is not defined"))),
          tt, Misuse.interp_with ∅ None {["x" := VInt 1]}).
Proof.
  refine (proj1 (resume_failure_reported_as_tool_failure (P := Misuse.P) 0 1
                   (Misuse.interp_with ∅ None ∅) tt
                   "SAVE(x=1); print(y)" None
                   (Misuse.config
                      (MontySnapshot "SAVE" [] [("x", VInt 1)]
                         (Misuse.suspended ∅ false [Scripted.PrintVar "y"]))
                      ∅ [])
                   "SAVE" [] [("x", VInt 1)]
                   (Misuse.suspended ∅ false [Scripted.PrintVar "y"])
                   (reserved_tool _save) (VStr "Saved: x") tt
                   {["x" := VInt 1]} []
                   (MontyRuntimeError "NameError: name 'y' is not defined")
                   _ _ _ _ _ _ _));
    [reflexivity | reflexivity | discriminate | reflexivity | reflexivity
    | reflexivity | lia].
Defined.

(** [SAVE(1, x=2)]: the turn fails and [x] is not saved. *)
Lemma reserved_tool_misuse_fails_witness :
  exists reason,
    execute (P := Misuse.P) 1 (Misuse.interp_with ∅ None ∅) tt
      "SAVE(1, x=2)" None
    = Some (Raise (CodeInterpreterError
                     ("Tool SAVE failed: "
                      +:+ type_error_message (Platform := Misuse.P) reason)
                     (Some (TypeError reason))),
            tt, Misuse.interp_with ∅ None ∅)
    /\ reason = UnexpectedPositional "_save" 1.
Proof.
  pose (c := Misuse.config
               (MontySnapshot "SAVE" [VInt 1] [("x", VInt 2)]
                  (Misuse.suspended ∅ false []))
               ∅ []).
  assert (Hr : reaches (P := Misuse.P) 0 (Misuse.interp_with ∅ None ∅) tt
                 "SAVE(1, x=2)" None = Some c) by reflexivity.
  assert (Hp : progress c
               = MontySnapshot "SAVE" [VInt 1] [("x", VInt 2)]
                   (Misuse.suspended ∅ false [])) by reflexivity.
  assert (Hm : (("SAVE" : string) = "SAVE" /\ [VInt 1] <> [])
               \/ (("SAVE" : string) = "CLEAR"
                   /\ [("x", VInt 2)] <> ([] : Kwargs)))
    by (left; split; [reflexivity|discriminate]).
  assert (Hlt : 0 < 1) by lia.
  pose proof (reserved_tool_misuse_fails (P := Misuse.P) 0 1 _ _ _ _ c
                "SAVE" [VInt 1] [("x", VInt 2)]
                (Misuse.suspended ∅ false []) Hr Hp Hm Hlt)
    as (reason & H1 & H2 & _).
  exists reason. split; [exact H1|exact (H2 eq_refl)].
Defined.

(** [print('a'); tick(); print('b')]: after the call the session has
    completed and both texts are captured, in order. *)
Lemma caller_tool_call_resumes_witness :
  reaches (P := Misuse.P) 1
    (Misuse.interp_with {["tick" := Misuse.tick]} None ∅) tt
    "print('a'); tick(); print('b')" None
  = Some (Misuse.config (MontyComplete VNone) ∅ ["a"; "b"]).
Proof.
  refine (caller_tool_call_resumes (P := Misuse.P) 0
            (Misuse.interp_with {["tick" := Misuse.tick]} None ∅) tt
            "print('a'); tick(); print('b')" None
            (Misuse.config
               (MontySnapshot "tick" [] []
                  (Misuse.suspended ∅ false [Scripted.Print "b"]))
               ∅ ["a"])
            "tick" [] [] (Misuse.suspended ∅ false [Scripted.Print "b"])
            Misuse.tick VNone tt [("stdout", "b")] (MontyComplete VNone)
            _ _ _ _ _ _ _ _);
    [reflexivity | reflexivity | discriminate | discriminate | discriminate
    | reflexivity | reflexivity | reflexivity].
Defined.

(** [interp.tools["greet"] = greet], as in [test_tools_injected_after_init]. *)
Lemma registered_tool_is_bound_witness :
  all_tools (register_tool Scripted.interp "greet" Scripted.greet) !! "greet"
  = Some (caller_tool Scripted.greet).
Proof.
  refine (proj1 (registered_tool_is_bound (P := Scripted.P) Scripted.interp
                   "greet" Scripted.greet _ _ _)); discriminate.
Defined.

(** [SAVE(x=1)] then [CLEAR('x')] on a store that binds [y] only. *)
Lemma clear_undoes_save_witness :
  (_clear [VStr "x"] [] (_save [] [("x", VInt 1)] {["y" := VInt 2]}).2).2
  = {["y" := VInt 2]}.
Proof.
  destruct (clear_undoes_save [("x", VInt 1)] {["y" := VInt 2]}
              ltac:(discriminate))
    as (_ & _ & H).
  apply H. intros k Hk. apply list_elem_of_singleton in Hk. subst k.
  reflexivity.
Defined.



(** [CLEAR('x', [], 'y')] on a store that holds [x] and [y] stops at the
    list and keeps [y]; on a store that holds [x] alone it fails in the
    join, with the store empty. *)
Lemma clear_unhashable_name_stops_witness :
  _clear [VStr "x"; VList []; VStr "y"] []
    (<["y" := VInt 2]> {["x" := VInt 1]})
  = (Failed (TypeError (Unhashable (VList []))), {["y" := VInt 2]})
  /\ _clear [VStr "x"; VList []; VStr "y"] [] {["x" := VInt 1]}
     = (Failed (TypeError (JoinExpectedStr (VList []))), ∅).
Proof.
  split.
  - destruct (clear_unhashable_name_stops ["x"] [] [VStr "y"]
                (<["y" := VInt 2]> {["x" := VInt 1]})) as (H & _).
    etransitivity; [apply H|reflexivity].
    intros He. apply (f_equal (lookup "y")) in He. discriminate He.
  - destruct (clear_unhashable_name_stops ["x"] [] [VStr "y"]
                {["x" := VInt 1]}) as (_ & H & _).
    apply H. reflexivity.
Defined.

(** * What a turn is started on *)

Section Bindings.
Context `{P : Platform}.

Implicit Types (self : MontyCodeInterpreter) (c : Config) (st : Dict).

(** [execute], with the bindings and what the session is started on made
    explicit. *)
Lemma execute_unfold fuel self w code (variables : option Dict) :
  let bindings := merged_vars variables (_state self) in
  let inputs := if decide (bindings = ∅) then None else Some bindings in
  execute fuel self w code variables
  = match Monty code (keys bindings) (keys (all_tools self))
                (_type_check self) (_type_check_stubs self) with
    | inl (RefusedSyntax msg) =>
        Some (Raise (SyntaxError msg (MontySyntaxError msg)), w, self)
    | inl (RefusedTyping msg) =>
        Some (Raise (CodeInterpreterError msg
                       (Some (MontyTypingError msg))), w, self)
    | inr monty =>
        match start monty inputs (_limits self) with
        | (_, inl msg) =>
            Some (Raise (CodeInterpreterError msg
                           (Some (MontyRuntimeError msg))), w, self)
        | (emitted, inr p) =>
            match loop fuel (all_tools self) (output_fields self)
                       {| progress := p; world := w; state := _state self;
                          stdout_parts := capture [] emitted |} with
            | Some (o, w', st) => Some (o, w', with_state self st)
            | None => None
            end
        end
    end.
Proof. done. Qed.

(** C2. [execute] hands to Monty the caller's variables merged with the
    state store, the store winning on every name bound in both: the names
    declared as inputs are the names these bindings bind, the session is
    started on the bindings themselves, or on [None] when they bind
    nothing, and the turn is what the loop makes of the session so
    started.  The turn depends on the caller's variables through the
    bindings only. *)
Theorem state_shadows_caller_variables fuel self w code
    (variables : option Dict) :
  let bindings := merged_vars variables (_state self) in
  let inputs := if decide (bindings = ∅) then None else Some bindings in
  (forall k, bindings !! k
             = match _state self !! k with
               | Some v => Some v
               | None => default ∅ variables !! k
               end)
  /\ (forall k v v', _state self !! k = Some v ->
                     default ∅ variables !! k = Some v' ->
                     bindings !! k = Some v)
  /\ NoDup (keys bindings)
  /\ (forall k, k ∈ keys bindings <-> is_Some (bindings !! k))
  /\ execute fuel self w code variables
     = match Monty code (keys bindings) (keys (all_tools self))
                   (_type_check self) (_type_check_stubs self) with
       | inl (RefusedSyntax msg) =>
           Some (Raise (SyntaxError msg (MontySyntaxError msg)), w, self)
       | inl (RefusedTyping msg) =>
           Some (Raise (CodeInterpreterError msg
                          (Some (MontyTypingError msg))), w, self)
       | inr monty =>
           match start monty inputs (_limits self) with
           | (_, inl msg) =>
               Some (Raise (CodeInterpreterError msg
                              (Some (MontyRuntimeError msg))), w, self)
           | (emitted, inr p) =>
               match loop fuel (all_tools self) (output_fields self)
                          {| progress := p; world := w;
                             state := _state self;
                             stdout_parts := capture [] emitted |} with
               | Some (o, w', st) => Some (o, w', with_state self st)
               | None => None
               end
           end
       end
  /\ (forall variables',
        merged_vars variables' (_state self) = bindings ->
        execute fuel self w code variables'
        = execute fuel self w code variables).
Proof.
  intros bindings inputs.
  split; [intros k; apply merged_vars_lookup|].
  split.
  { intros k v v' Hs _. subst bindings.
    by rewrite merged_vars_lookup, Hs. }
  split; [apply NoDup_fst_map_to_list|].
  split; [intros k; apply elem_of_keys|].
  split; [apply execute_unfold|].
  intros variables' Heq. unfold execute. by rewrite Heq.
Qed.

End Bindings.

(** The store binds [x] to 2 and the caller passes [x = 1] and [y = 3]: the
    session is started on [x = 2] and prints it. *)
Lemma state_shadows_caller_variables_witness :
  let self := Scripted.interp_with ∅ None {["x" := VInt 2]} in
  execute (P := Scripted.P) 0 self tt "print(x)"
    (Some (<["y" := VInt 3]> {["x" := VInt 1]}))
  = Some (Return (PyStr ("2" +:+ Scripted.nl)), tt, self).
Proof.
  intros self.
  destruct (state_shadows_caller_variables (P := Scripted.P) 0 self tt
              "print(x)" (Some (<["y" := VInt 3]> {["x" := VInt 1]})))
    as (_ & _ & _ & _ & H & _).
  rewrite H. reflexivity.
Defined.

(** * The failures execute reports *)

Section Failures.
Context `{P : Platform}.

Implicit Types (self : MontyCodeInterpreter) (c : Config) (st : Dict).

(** C4, as the code has it.  Each failure that [execute] handles is
    raised as an exception of one of two classes.  Code that Monty refuses
    for its syntax gives a [SyntaxError].  Code that Monty refuses for its
    types, a runtime error as the session starts, a suspension on a name
    that is not registered, an [Exception] raised by a registered tool and
    a suspension that is not a call each give a [CodeInterpreterError]:
    these five are of one class and differ in the message and the cause
    only. *)
Theorem failures_are_two_classes self w code (variables : option Dict) :
  let bindings := merged_vars variables (_state self) in
  let made :=
    Monty code (keys bindings) (keys (all_tools self))
          (_type_check self) (_type_check_stubs self) in
  (forall fuel msg,
     made = inl (RefusedSyntax msg) ->
     execute fuel self w code variables
     = Some (Raise (SyntaxError msg (MontySyntaxError msg)), w, self))
  /\ (forall fuel msg,
        made = inl (RefusedTyping msg) ->
        execute fuel self w code variables
        = Some (Raise (CodeInterpreterError msg
                         (Some (MontyTypingError msg))), w, self))
  /\ (forall fuel monty emitted msg,
        made = inr monty ->
        start monty (or_none bindings) (_limits self)
        = (emitted, inl msg) ->
        execute fuel self w code variables
        = Some (Raise (CodeInterpreterError msg
                         (Some (MontyRuntimeError msg))), w, self))
  /\ (forall n fuel c name args kwargs suspended,
        reaches n self w code variables = Some c ->
        n < fuel ->
        progress c = MontySnapshot name args kwargs suspended ->
        name <> "SUBMIT" ->
        all_tools self !! name = None ->
        execute fuel self w code variables
        = Some (Raise (CodeInterpreterError
                         ("Unknown function: " +:+ name) None),
                world c, with_state self (state c)))
  /\ (forall n fuel c name args kwargs suspended (func : Tool) e w' st',
        reaches n self w code variables = Some c ->
        n < fuel ->
        progress c = MontySnapshot name args kwargs suspended ->
        name <> "SUBMIT" ->
        all_tools self !! name = Some func ->
        func args kwargs (world c, state c) = (Failed e, (w', st')) ->
        execute fuel self w code variables
        = Some (Raise (CodeInterpreterError
                         ("Tool " +:+ name +:+ " failed: " +:+ str e)
                         (Some e)),
                w', with_state self st'))
  /\ (forall n fuel c,
        reaches n self w code variables = Some c ->
        n < fuel ->
        progress c = MontyFutureSnapshot ->
        execute fuel self w code variables
        = Some (Raise (CodeInterpreterError
                         "Async futures not supported" None),
                world c, with_state self (state c)))
  /\ (forall msg cause msg1 cause1 msg2 cause2,
        class_of (SyntaxError msg cause) = SyntaxErrorClass
        /\ class_of (CodeInterpreterError msg1 cause1)
           = CodeInterpreterErrorClass
        /\ class_of (CodeInterpreterError msg1 cause1)
           = class_of (CodeInterpreterError msg2 cause2)
        /\ class_of (SyntaxError msg cause)
           <> class_of (CodeInterpreterError msg1 cause1)).
Proof.
  intros bindings made.
  split; [|split; [|split; [|split; [|split; [|split]]]]].
  - intros fuel msg Hm. rewrite execute_unfold. fold bindings made.
    by rewrite Hm.
  - intros fuel msg Hm. rewrite execute_unfold. fold bindings made.
    by rewrite Hm.
  - intros fuel monty emitted msg Hm Hs. unfold execute.
    fold bindings made. by rewrite Hm, Hs.
  - intros n fuel c name args kwargs suspended Hr Hlt Hp Hn Hl.
    eapply execute_finish; eauto; [by rewrite Hp|].
    unfold loop_body. rewrite Hp, decide_False by done. by rewrite Hl.
  - intros n fuel c name args kwargs suspended func e w' st'
           Hr Hlt Hp Hn Hl Hf.
    eapply execute_finish; eauto; [by rewrite Hp|].
    eapply loop_body_tool_failed; eauto.
  - intros n fuel c Hr Hlt Hp.
    eapply execute_finish; eauto; [by rewrite Hp|].
    unfold loop_body. by rewrite Hp.
  - done.
Qed.

End Failures.

(** C4, as stated, fails: a script that breaks by itself and a tool that
    raises are reported in the same exception class, and a script that
    breaks after a tool has returned is reported in the words of a tool
    failure. *)
Lemma runtime_and_tool_errors_share_class :
  let script_broke :=
    CodeInterpreterError "NameError: name 'x' is not defined"
      (Some (MontyRuntimeError "NameError: name 'x' is not defined")) in
  let tool_broke :=
    CodeInterpreterError "Tool boom failed: boom"
      (Some (ToolException "ValueError" "boom")) in
  let script_broke_later :=
    CodeInterpreterError
      "Tool greet failed: NameError: name 'x' is not defined"
      (Some (MontyRuntimeError "NameError: name 'x' is not defined")) in
  let self :=
    Scripted.interp_with
      (<["greet" := Scripted.greet]> {["boom" := Scripted.boom]}) None ∅ in
  execute (P := Scripted.P) 1 self tt "print(x)" None
  = Some (Raise script_broke, tt, self)
  /\ execute (P := Scripted.P) 1 self tt "boom()" None
     = Some (Raise tool_broke, tt, self)
  /\ execute (P := Scripted.P) 1 self tt "greet('world'); print(x)" None
     = Some (Raise script_broke_later, tt, self)
  /\ class_of script_broke = class_of tool_broke
  /\ class_of script_broke_later = class_of tool_broke.
Proof. repeat split; reflexivity. Qed.

(** [boom()]: a tool that raises, and [print(x)] with [x] unbound: a script
    that breaks as it starts. *)
Lemma failures_are_two_classes_witness :
  let self := Scripted.interp_with {["boom" := Scripted.boom]} None ∅ in
  execute (P := Scripted.P) 1 self tt "boom()" None
  = Some (Raise (CodeInterpreterError "Tool boom failed: boom"
                   (Some (ToolException "ValueError" "boom"))),
          tt, self)
  /\ execute (P := Scripted.P) 1 self tt "print(x)" None
     = Some (Raise (CodeInterpreterError
                      "NameError: name 'x' is not defined"
                      (Some (MontyRuntimeError
                               "NameError: name 'x' is not defined"))),
             tt, self).
Proof.
  intros self. split.
  - destruct (failures_are_two_classes (P := Scripted.P) self tt "boom()"
                None)
      as (_ & _ & _ & _ & H & _).
    refine (H 0 1
              (Scripted.config
                 (MontySnapshot "boom" [] []
                    (Scripted.suspended ∅ false []))
                 ∅ [])
              "boom" [] [] (Scripted.suspended ∅ false [])
              (caller_tool Scripted.boom)
              (ToolException "ValueError" "boom") tt ∅ _ _ _ _ _ _);
      [reflexivity | lia | reflexivity | discriminate | reflexivity
      | reflexivity].
  - destruct (failures_are_two_classes (P := Scripted.P) self tt "print(x)"
                None)
      as (_ & _ & H & _).
    refine (H 1 [Scripted.PrintVar "x"] []
              "NameError: name 'x' is not defined" _ _);
      reflexivity.
Defined.

(** * Saved bindings from turn to turn *)

Section Persistence.
Context `{P : Platform}.

Implicit Types (self : MontyCodeInterpreter) (c : Config) (st : Dict).

Lemma reaches_S_None n self w code variables :
  reaches n self w code variables = None ->
  reaches (S n) self w code variables = None.
Proof.
  intros Hn. destruct (reaches (S n) self w code variables) as [c'|] eqn:E;
    [|done].
  apply reaches_S in E as (c0 & H0 & _). congruence.
Qed.

Lemma reaches_le n m self w code variables c :
  reaches n self w code variables = Some c ->
  m <= n ->
  exists cm, reaches m self w code variables = Some cm.
Proof.
  revert c. induction n as [|n IH]; intros c Hr Hle.
  - assert (m = 0) as -> by lia. by exists c.
  - destruct (decide (m = S n)) as [->|Hne]; [by exists c|].
    apply reaches_S in Hr as (c0 & H0 & _).
    apply (IH c0 H0). lia.
Qed.

(** A configuration the loop stops on is the last of its turn. *)
Lemma reaches_last n m self w code variables c :
  reaches n self w code variables = Some c ->
  next (all_tools self) (output_fields self) c = None ->
  n < m ->
  reaches m self w code variables = None.
Proof.
  intros Hr Hnext Hlt.
  destruct (reaches m self w code variables) as [cm|] eqn:E; [|done].
  destruct (reaches_le m (S n) self w code variables cm E ltac:(lia))
    as (c1 & H1).
  apply reaches_S in H1 as (c0 & H0 & Hn). congruence.
Qed.

(** The store between two points of a turn with no [SAVE] and no [CLEAR]
    from the first to just before the second. *)
Lemma reaches_state_between a b self w code variables ca cb :
  a <= b ->
  reaches a self w code variables = Some ca ->
  reaches b self w code variables = Some cb ->
  (forall m cm, a <= m -> m < b ->
                reaches m self w code variables = Some cm ->
                requested cm <> Some "SAVE"
                /\ requested cm <> Some "CLEAR") ->
  state cb = state ca.
Proof.
  revert cb. induction b as [|b IH]; intros cb Hle Ha Hb Hno.
  - assert (a = 0) as -> by lia. congruence.
  - destruct (decide (a = S b)) as [->|Hne]; [congruence|].
    apply reaches_S in Hb as (c0 & H0 & Hnext).
    destruct (Hno b c0 ltac:(lia) ltac:(lia) H0) as [Hs Hc].
    pose proof Hnext as Hinv.
    apply next_inv in Hinv
      as (name & args & kwargs & suspended & _ & _ & _ & Hp & _).
    rewrite (next_state _ _ _ _ _ _ _ _ Hnext Hp).
    unfold requested in Hs, Hc. rewrite Hp in Hs, Hc.
    rewrite !decide_False by congruence.
    apply IH; [lia|done|done|]. intros m cm H1 H2. apply Hno; lia.
Qed.

(** The store after a turn whose only [SAVE] or [CLEAR] is one [SAVE]
    with keyword arguments, however the turn ends. *)
Lemma single_save_turn n fuel self w code variables c kwargs suspended
    o w' self' :
  reaches n self w code variables = Some c ->
  progress c = MontySnapshot "SAVE" [] kwargs suspended ->
  (forall m cm, m <> n -> reaches m self w code variables = Some cm ->
                requested cm <> Some "SAVE"
                /\ requested cm <> Some "CLEAR") ->
  execute fuel self w code variables = Some (o, w', self') ->
  self' = with_state self (dict_update (_state self) kwargs).
Proof.
  intros Hr Hp Hno He.
  assert (Hc : state c = _state self).
  { destruct (reaches_le n 0 self w code variables c Hr ltac:(lia))
      as (c0 & H0).
    rewrite (reaches_state_between 0 n _ _ _ _ c0 c ltac:(lia) H0 Hr).
    - apply reaches_0 in H0. by apply enters_state in H0 as [? _].
    - intros m cm _ Hm. apply Hno. lia. }
  apply execute_inv in He
    as [(Hent & _)|(n' & c' & st & Hn' & Hr' & -> & Hend)].
  { unfold reaches in Hr. by rewrite Hent in Hr. }
  assert (Hstop : next (all_tools self) (output_fields self) c' = None).
  { unfold next. destruct Hend as [(v & -> & _)|(_ & _ & Hb)]; [done|].
    rewrite Hb. by destruct (progress c'). }
  assert (Hge : n <= n').
  { destruct (decide (n <= n')) as [|Hlt]; [done|].
    rewrite (reaches_last n' n _ _ _ _ c' Hr' Hstop ltac:(lia)) in Hr.
    done. }
  f_equal.
  destruct (decide (n' = n)) as [->|Hne].
  - rewrite Hr in Hr'. injection Hr' as <-.
    destruct Hend as [(v & Hv & _)|(_ & _ & Hb)]; [congruence|].
    pose proof (loop_body_reserved _ (output_fields self) _ _ _ _ _ _
                  Hp ltac:(done) (all_tools_SAVE self)) as Hs.
    rewrite Hb in Hs. simpl in Hs. by rewrite Hs, Hc.
  - destruct (reaches_le n' (S n) self w code variables c' Hr'
                ltac:(lia)) as (c1 & H1).
    pose proof H1 as H1'.
    apply reaches_S in H1' as (c0 & H0 & Hnext).
    rewrite Hr in H0. injection H0 as <-.
    pose proof (next_state _ _ _ _ _ _ _ _ Hnext Hp) as Hs1.
    rewrite decide_True in Hs1 by done. cbn [_save snd] in Hs1.
    assert (Hs' : state c' = state c1).
    { apply (reaches_state_between (S n) n' self w code variables);
        [lia|done|done|].
      intros m cm Hm _. apply Hno. lia. }
    destruct (Hno n' c' Hne Hr') as [Hns Hnc].
    destruct Hend as [(v & _ & _ & _ & ->)|(_ & _ & Hb)].
    + by rewrite Hs', Hs1, Hc.
    + rewrite (loop_body_finish_state _ _ _ _ _ _ Hb Hns Hnc).
      by rewrite Hs', Hs1, Hc.
Qed.

(** C5. [SAVE] called with keyword arguments stores every pair, a later
    pair for a name replacing an earlier one, and returns [Saved: ] and
    the names; a pass of the loop that answers such a suspension leaves
    the store so.  A turn whose only [SAVE] or [CLEAR] is that [SAVE]
    returns, however it ends, the interpreter with the store so updated,
    and the next [execute] starts its session on bindings that hold the
    saved values before any caller variable of the same name.  After a
    second such turn the store holds the second save's values, then the
    first's, then what was there before, and so do the bindings the turn
    after it is started on. *)
Theorem save_merges_and_persists self (kwargs kwargs2 : Kwargs) st
    (variables : option Dict) :
  let st1 := dict_update st kwargs in
  let st2 := dict_update st1 kwargs2 in
  all_tools self !! "SAVE" = Some (reserved_tool _save)
  /\ _save [] kwargs st
     = (Returned (VStr ("Saved: " +:+ join ", " kwargs.*1)), st1)
  /\ (forall c fields suspended,
        progress c = MontySnapshot "SAVE" [] kwargs suspended ->
        state c = st ->
        step_state (loop_body (all_tools self) fields c) = st1)
  /\ (forall k, st1 !! k = match dict kwargs !! k with
                           | Some v => Some v
                           | None => st !! k
                           end)
  /\ (forall k v, NoDup kwargs.*1 -> (k, v) ∈ kwargs -> st1 !! k = Some v)
  /\ (forall k v, dict kwargs !! k = Some v ->
                  merged_vars variables st1 !! k = Some v)
  /\ (forall k, merged_vars variables st2 !! k
                = match dict kwargs2 !! k with
                  | Some v => Some v
                  | None =>
                      match dict kwargs !! k with
                      | Some v => Some v
                      | None => merged_vars variables st !! k
                      end
                  end)
  /\ (forall n fuel w code variables0 c suspended o w' self',
        _state self = st ->
        reaches n self w code variables0 = Some c ->
        progress c = MontySnapshot "SAVE" [] kwargs suspended ->
        (forall m cm, m <> n ->
                      reaches m self w code variables0 = Some cm ->
                      requested cm <> Some "SAVE"
                      /\ requested cm <> Some "CLEAR") ->
        execute fuel self w code variables0 = Some (o, w', self') ->
        self' = with_state self st1)
  /\ (forall n fuel w code variables0 c suspended o w' self',
        reaches n (with_state self st1) w code variables0 = Some c ->
        progress c = MontySnapshot "SAVE" [] kwargs2 suspended ->
        (forall m cm, m <> n ->
                      reaches m (with_state self st1) w code variables0
                      = Some cm ->
                      requested cm <> Some "SAVE"
                      /\ requested cm <> Some "CLEAR") ->
        execute fuel (with_state self st1) w code variables0
        = Some (o, w', self') ->
        self' = with_state self st2)
  /\ (forall s k v fuel w code,
        merged_vars variables s !! k = Some v ->
        let bindings := merged_vars variables s in
        execute fuel (with_state self s) w code variables
        = match Monty code (keys bindings) (keys (all_tools self))
                      (_type_check self) (_type_check_stubs self) with
          | inl (RefusedSyntax msg) =>
              Some (Raise (SyntaxError msg (MontySyntaxError msg)), w,
                    with_state self s)
          | inl (RefusedTyping msg) =>
              Some (Raise (CodeInterpreterError msg
                             (Some (MontyTypingError msg))), w,
                    with_state self s)
          | inr monty =>
              match start monty (Some bindings) (_limits self) with
              | (_, inl msg) =>
                  Some (Raise (CodeInterpreterError msg
                                 (Some (MontyRuntimeError msg))), w,
                        with_state self s)
              | (emitted, inr p) =>
                  match loop fuel (all_tools self) (output_fields self)
                             {| progress := p; world := w; state := s;
                                stdout_parts := capture [] emitted |} with
                  | Some (o, w', st') => Some (o, w', with_state self st')
                  | None => None
                  end
              end
          end).
Proof.
  intros st1 st2.
  split; [apply all_tools_SAVE|].
  split; [done|].
  split.
  { intros c fields suspended Hp Hst.
    rewrite (loop_body_reserved _ _ _ _ _ _ _ _ Hp ltac:(done)
               (all_tools_SAVE self)).
    by rewrite Hst. }
  split; [intros k; apply dict_update_lookup|].
  split.
  { intros k v Hnd Hin. subst st1.
    by rewrite dict_update_lookup, (dict_lookup_Some _ _ _ Hnd Hin). }
  split.
  { intros k v Hk. subst st1.
    by rewrite merged_vars_lookup, dict_update_lookup, Hk. }
  split.
  { intros k. subst st2 st1.
    rewrite !merged_vars_lookup, !dict_update_lookup.
    by destruct (dict kwargs2 !! k), (dict kwargs !! k), (st !! k). }
  split.
  { intros n fuel w code variables0 c suspended o w' self'
           Hst Hr Hp Hno He.
    rewrite (single_save_turn _ _ _ _ _ _ _ _ _ _ _ _ Hr Hp Hno He).
    by rewrite Hst. }
  split.
  { intros n fuel w code variables0 c suspended o w' self' Hr Hp Hno He.
    by rewrite (single_save_turn _ _ _ _ _ _ _ _ _ _ _ _ Hr Hp Hno He). }
  intros s k v fuel w code Hk bindings.
  rewrite execute_unfold. cbn [_state with_state].
  fold bindings. rewrite decide_False; [done|].
  intros Hempty. unfold bindings in Hempty.
  rewrite Hempty, lookup_empty in Hk. done.
Qed.

End Persistence.

(** [SAVE(x=1)], then [SAVE(x=2)], then [print(x)] with [x = 0] passed by
    the caller: the third turn prints 2. *)
Lemma save_merges_and_persists_witness :
  let self1 := with_state Scripted.interp (dict_update ∅ [("x", VInt 1)]) in
  let self2 :=
    with_state Scripted.interp
      (dict_update (dict_update ∅ [("x", VInt 1)]) [("x", VInt 2)]) in
  execute (P := Scripted.P) 1 Scripted.interp tt "SAVE(x=1)" None
  = Some (Return PyNone, tt, self1)
  /\ execute (P := Scripted.P) 1 self1 tt "SAVE(x=2)" None
     = Some (Return PyNone, tt, self2)
  /\ execute (P := Scripted.P) 0 self2 tt "print(x)"
       (Some {["x" := VInt 0]})
     = Some (Return (PyStr ("2" +:+ Scripted.nl)), tt, self2).
Proof.
  intros self1 self2.
  destruct (save_merges_and_persists (P := Scripted.P) Scripted.interp
              [("x", VInt 1)] [("x", VInt 2)] ∅
              (Some {["x" := VInt 0]}))
    as (_ & _ & _ & _ & _ & _ & _ & H8 & H10 & H9).
  assert (E1 : execute (P := Scripted.P) 1 Scripted.interp tt "SAVE(x=1)"
                 None
               = Some (Return PyNone, tt, self1)) by reflexivity.
  assert (E2 : execute (P := Scripted.P) 1 self1 tt "SAVE(x=2)" None
               = Some (Return PyNone, tt, self2)) by reflexivity.
  split; [exact E1|]. split; [exact E2|].
  assert (S1 : self1
               = with_state Scripted.interp
                   (dict_update ∅ [("x", VInt 1)])).
  { refine (H8 0 1 tt "SAVE(x=1)" None
              (Scripted.config
                 (MontySnapshot "SAVE" [] [("x", VInt 1)]
                    (Scripted.suspended ∅ false []))
                 ∅ [])
              (Scripted.suspended ∅ false []) (Return PyNone) tt self1
              eq_refl eq_refl eq_refl _ E1).
    intros [|[|m]] cm Hm H; [done| |].
    - change (Some (Scripted.config (MontyComplete VNone)
                      (dict_update ∅ [("x", VInt 1)]) [])
              = Some cm) in H.
      injection H as <-. split; discriminate.
    - change (None = Some cm) in H. discriminate. }
  assert (S2 : self2
               = with_state Scripted.interp
                   (dict_update (dict_update ∅ [("x", VInt 1)])
                      [("x", VInt 2)])).
  { refine (H10 0 1 tt "SAVE(x=2)" None
              (Scripted.config
                 (MontySnapshot "SAVE" [] [("x", VInt 2)]
                    (Scripted.suspended (dict_update ∅ [("x", VInt 1)])
                       false []))
                 (dict_update ∅ [("x", VInt 1)]) [])
              (Scripted.suspended (dict_update ∅ [("x", VInt 1)]) false [])
              (Return PyNone) tt self2 eq_refl eq_refl _ E2).
    intros [|[|m]] cm Hm H; [done| |].
    - change (Some (Scripted.config (MontyComplete VNone)
                      (dict_update (dict_update ∅ [("x", VInt 1)])
                         [("x", VInt 2)]) [])
              = Some cm) in H.
      injection H as <-. split; discriminate.
    - change (None = Some cm) in H. discriminate. }
  etransitivity;
    [exact (H9 (dict_update (dict_update ∅ [("x", VInt 1)])
                  [("x", VInt 2)])
               "x" (VInt 2) 0 tt "print(x)" eq_refl)|].
  reflexivity.
Defined.

(** ** What the loop does not catch *)

Section Uncaught.
Context `{P : Platform}.

Implicit Types (self : MontyCodeInterpreter) (c : Config).

(** X21. An exception of a caller tool that is not an [Exception], such
    as [KeyboardInterrupt], is not wrapped: it leaves [execute] as it was
    raised, of its own class, which is neither [SyntaxError] nor
    [CodeInterpreterError]; the session is not resumed, the host is as the
    tool left it and the store as the earlier calls of the turn left it. *)
Theorem tool_base_exception_escapes n fuel self w code variables c
    name args kwargs suspended (f : CallerTool) cls msg w' :
  reaches n self w code variables = Some c ->
  progress c = MontySnapshot name args kwargs suspended ->
  name <> "SAVE" -> name <> "CLEAR" -> name <> "SUBMIT" ->
  _tools self !! name = Some f ->
  f args kwargs (world c) = (Escaped cls msg, w') ->
  n < fuel ->
  execute fuel self w code variables
  = Some (Raise (Uncaught cls msg), w', with_state self (state c))
  /\ class_of (Uncaught cls msg) = BaseExceptionClass cls
  /\ class_of (Uncaught cls msg) <> SyntaxErrorClass
  /\ class_of (Uncaught cls msg) <> CodeInterpreterErrorClass
  /\ message_of (Uncaught cls msg) = msg.
Proof.
  intros Hr Hp H1 H2 H3 Hf Hcall Hlt.
  split; [|done].
  eapply execute_finish; eauto; [by rewrite Hp|].
  unfold loop_body. rewrite Hp, decide_False by done.
  rewrite all_tools_caller, Hf by done. simpl.
  unfold caller_tool. simpl. by rewrite Hcall.
Qed.

End Uncaught.

(** [SAVE(x=1); stop()] where [stop] is interrupted from the keyboard:
    the interrupt leaves [execute] unwrapped and [x] stays saved. *)
Lemma tool_base_exception_escapes_witness :
  let self := Escape.interp_with {["stop" := Escape.stop]} None ∅ in
  execute (P := Escape.P) 2 self tt "SAVE(x=1); stop()" None
  = Some (Raise (Uncaught "KeyboardInterrupt" ""), tt,
          with_state self {["x" := VInt 1]}).
Proof.
  intros self.
  pose (c := Escape.config
               (MontySnapshot "stop" [] []
                  (Escape.suspended ∅ false []))
               (dict_update ∅ [("x", VInt 1)]) []).
  assert (Hr : reaches (P := Escape.P) 1 self tt "SAVE(x=1); stop()" None
               = Some c) by reflexivity.
  destruct (tool_base_exception_escapes (P := Escape.P) 1 2 self tt
              "SAVE(x=1); stop()" None c "stop" [] []
              (Escape.suspended ∅ false []) Escape.stop
              "KeyboardInterrupt" "" tt Hr eq_refl
              ltac:(discriminate) ltac:(discriminate) ltac:(discriminate)
              eq_refl eq_refl ltac:(lia)) as [H _].
  exact H.
Defined.
